(** * NIORA storefront: order ledger, access control and dashboard analytics

    A shallow embedding of the order / reporting core of [src/App.tsx]:

    - the JSON text codec the program relies on ([JSON.stringify] when an
      order is written, [JSON.parse] when a snapshot is read back);
    - the client-side dashboard aggregation ([filteredOrders],
      [dashboardStats]);
    - the Express server: the [authenticateToken] / [isAdmin] middleware,
      the route table, [POST /api/orders] and [GET /api/admin/stats].

    Modelling conventions.

    - JavaScript numbers are modelled by [Z]: amounts and quantities are
      whole numbers (the catalogue prices are 79, 89 and 200), a range in
      which double arithmetic is exact.  Counters that only ever count
      ([delivered], [pending], [length]) are [nat].
    - JavaScript strings are [string]; a character is one 8-bit code unit.
    - [Record<string, number>] objects are finite maps.  Where only lookups
      matter ([monthlySales]) the map is a [gmap]; where [Object.keys]
      order matters ([productCount], [salesMap]) it is an association list
      kept in insertion order.  Keys are month abbreviations and product
      names, taken not to collide with members of [Object.prototype] nor
      to be canonical array indices.
    - Platform functions that are not part of the repository are
      parameters: the [Date] / [toLocaleString] month abbreviation, the
      JWT verification and the server clock.
    - An exception is an explicit [Throw] result; [try { } catch (e) { }]
      is an explicit handler. *)

From Stdlib Require Import ZArith List Ascii String Lia Decimal DecimalZ.
From stdpp Require Import gmap strings.
Import ListNotations.

(* ===================================================================== *)
(** * JSON texts *)
(* ===================================================================== *)

Module Json.

Local Open Scope char_scope.

#[local] Set Warnings "-register-all".

(** A JSON value.  Numbers are the whole numbers of the embedding.  Object
    members are kept in textual order; property access reads the last
    member of a given name, as a JavaScript object built by [JSON.parse]
    does. *)
Inductive json : Type :=
| JNull
| JBool (b : bool)
| JNum (z : Z)
| JStr (s : string)
| JArr (elems : list json)
| JObj (members : list (string * json)).

(** The induction principle that reaches inside arrays and objects. *)
Section json_induction.
Variable P : json -> Prop.
Hypothesis Hnull : P JNull.
Hypothesis Hbool : forall b, P (JBool b).
Hypothesis Hnum : forall z, P (JNum z).
Hypothesis Hstr : forall s, P (JStr s).
Hypothesis Harr : forall l, Forall P l -> P (JArr l).
Hypothesis Hobj : forall ms, Forall (fun kv => P (snd kv)) ms -> P (JObj ms).

Fixpoint json_nested_ind (v : json) : P v :=
  match v with
  | JNull => Hnull
  | JBool b => Hbool b
  | JNum z => Hnum z
  | JStr s => Hstr s
  | JArr l =>
      Harr l
        ((fix go (l : list json) : Forall P l :=
            match l with
            | [] => @List.Forall_nil _ P
            | x :: r => @List.Forall_cons _ P x r (json_nested_ind x) (go r)
            end) l)
  | JObj ms =>
      Hobj ms
        ((fix go (ms : list (string * json)) : Forall (fun kv => P (snd kv)) ms :=
            match ms with
            | [] => @List.Forall_nil _ _
            | kv :: r => @List.Forall_cons _ _ kv r (json_nested_ind (snd kv)) (go r)
            end) ms)
  end.
End json_induction.

(** ** Characters *)

Definition dquote : ascii := "034".
Definition backslash : ascii := "\".

Definition is_ws (c : ascii) : bool :=
  Ascii.eqb c " " || Ascii.eqb c "009" || Ascii.eqb c "010" || Ascii.eqb c "013".

Definition is_control (c : ascii) : bool := Nat.ltb (nat_of_ascii c) 32.

Definition hex_digit (n : nat) : ascii :=
  match n with
  | 0 => "0" | 1 => "1" | 2 => "2" | 3 => "3" | 4 => "4"
  | 5 => "5" | 6 => "6" | 7 => "7" | 8 => "8" | 9 => "9"
  | 10 => "a" | 11 => "b" | 12 => "c" | 13 => "d" | 14 => "e"
  | _ => "f"
  end.

Definition hex_value (c : ascii) : option nat :=
  let n := nat_of_ascii c in
  if Nat.leb 48 n && Nat.leb n 57 then Some (n - 48)
  else if Nat.leb 97 n && Nat.leb n 102 then Some (n - 87)
  else if Nat.leb 65 n && Nat.leb n 70 then Some (n - 55)
  else None.

(** ** [JSON.stringify] *)

(** QuoteJSONString: the two-character escapes, [\u00xx] for the other
    control characters, every other character as it is. *)
Definition escape_char (c : ascii) : list ascii :=
  if Ascii.eqb c dquote then [backslash; dquote]
  else if Ascii.eqb c backslash then [backslash; backslash]
  else if Ascii.eqb c "008" then [backslash; "b"]
  else if Ascii.eqb c "012" then [backslash; "f"]
  else if Ascii.eqb c "010" then [backslash; "n"]
  else if Ascii.eqb c "013" then [backslash; "r"]
  else if Ascii.eqb c "009" then [backslash; "t"]
  else if is_control c then
    [backslash; "u"; "0"; "0";
     hex_digit (nat_of_ascii c / 16); hex_digit (nat_of_ascii c mod 16)]
  else [c].

Fixpoint escape (s : list ascii) : list ascii :=
  match s with
  | [] => []
  | c :: r => escape_char c ++ escape r
  end.

Definition quote (s : string) : list ascii :=
  dquote :: escape (list_ascii_of_string s) ++ [dquote].

Fixpoint print_uint (u : uint) : list ascii :=
  match u with
  | Nil => []
  | D0 r => "0" :: print_uint r
  | D1 r => "1" :: print_uint r
  | D2 r => "2" :: print_uint r
  | D3 r => "3" :: print_uint r
  | D4 r => "4" :: print_uint r
  | D5 r => "5" :: print_uint r
  | D6 r => "6" :: print_uint r
  | D7 r => "7" :: print_uint r
  | D8 r => "8" :: print_uint r
  | D9 r => "9" :: print_uint r
  end.

Definition print_int (z : Z) : list ascii :=
  match Z.to_int z with
  | Pos u => print_uint u
  | Neg u => "-" :: print_uint u
  end.

Fixpoint stringify_chars (v : json) : list ascii :=
  match v with
  | JNull => list_ascii_of_string "null"
  | JBool true => list_ascii_of_string "true"
  | JBool false => list_ascii_of_string "false"
  | JNum z => print_int z
  | JStr s => quote s
  | JArr l =>
      "[" :: (fix elems (l : list json) : list ascii :=
                match l with
                | [] => ["]"]
                | x :: r =>
                    stringify_chars x ++
                    match r with
                    | [] => ["]"]
                    | _ :: _ => "," :: elems r
                    end
                end) l
  | JObj ms =>
      "{" :: (fix members (ms : list (string * json)) : list ascii :=
                match ms with
                | [] => ["}"]
                | (k, x) :: r =>
                    quote k ++ ":" :: stringify_chars x ++
                    match r with
                    | [] => ["}"]
                    | _ :: _ => "," :: members r
                    end
                end) ms
  end.

Definition JSON_stringify (v : json) : string :=
  string_of_list_ascii (stringify_chars v).

(** ** [JSON.parse] *)

Fixpoint skip_ws (s : list ascii) : list ascii :=
  match s with
  | c :: r => if is_ws c then skip_ws r else s
  | [] => []
  end.

Fixpoint strip_prefix (p s : list ascii) : option (list ascii) :=
  match p, s with
  | [], _ => Some s
  | a :: p', b :: s' => if Ascii.eqb a b then strip_prefix p' s' else None
  | _ :: _, [] => None
  end.

Definition unescape (e : ascii) : option ascii :=
  if Ascii.eqb e dquote then Some dquote
  else if Ascii.eqb e backslash then Some backslash
  else if Ascii.eqb e "/" then Some "/"
  else if Ascii.eqb e "b" then Some "008"
  else if Ascii.eqb e "f" then Some "012"
  else if Ascii.eqb e "n" then Some "010"
  else if Ascii.eqb e "r" then Some "013"
  else if Ascii.eqb e "t" then Some "009"
  else None.

(** [\uXXXX]: a code unit, kept when it fits the 8-bit characters. *)
Definition hex4 (a b c d : ascii) : option ascii :=
  match hex_value a, hex_value b, hex_value c, hex_value d with
  | Some 0, Some 0, Some x, Some y => Some (ascii_of_nat (16 * x + y))
  | _, _, _, _ => None
  end.

(** The characters of a string literal, after its opening quote. *)
Fixpoint parse_chars (s : list ascii) : option (list ascii * list ascii) :=
  match s with
  | [] => None
  | c :: r =>
      if Ascii.eqb c dquote then Some ([], r)
      else if Ascii.eqb c backslash then
        match r with
        | [] => None
        | e :: r1 =>
            if Ascii.eqb e "u" then
              match r1 with
              | h1 :: h2 :: h3 :: h4 :: r2 =>
                  match hex4 h1 h2 h3 h4 with
                  | Some ch =>
                      match parse_chars r2 with
                      | Some (cs, r3) => Some (ch :: cs, r3)
                      | None => None
                      end
                  | None => None
                  end
              | _ => None
              end
            else
              match unescape e with
              | Some ch =>
                  match parse_chars r1 with
                  | Some (cs, r3) => Some (ch :: cs, r3)
                  | None => None
                  end
              | None => None
              end
        end
      else if is_control c then None
      else
        match parse_chars r with
        | Some (cs, r3) => Some (c :: cs, r3)
        | None => None
        end
  end.

Definition digit_of (c : ascii) : option (uint -> uint) :=
  match nat_of_ascii c - 48, Nat.leb 48 (nat_of_ascii c) with
  | 0, true => Some D0 | 1, _ => Some D1 | 2, _ => Some D2 | 3, _ => Some D3
  | 4, _ => Some D4 | 5, _ => Some D5 | 6, _ => Some D6 | 7, _ => Some D7
  | 8, _ => Some D8 | 9, _ => Some D9
  | _, _ => None
  end.

(** The longest run of decimal digits. *)
Fixpoint lex_uint (s : list ascii) : uint * list ascii :=
  match s with
  | [] => (Nil, [])
  | c :: r =>
      match digit_of c with
      | Some d => let (u, r') := lex_uint r in (d u, r')
      | None => (Nil, s)
      end
  end.

(** The integer part of the JSON number grammar: [0] or a digit run that
    does not start with [0].  A literal with a fraction or an exponent is
    not a whole number and is not in the grammar of the embedding. *)
Definition well_formed_uint (u : uint) : bool :=
  match u with
  | Nil => false
  | D0 Nil => true
  | D0 _ => false
  | _ => true
  end.

Definition parse_number (s : list ascii) : option (json * list ascii) :=
  match s with
  | [] => None
  | c :: r =>
      if Ascii.eqb c "-" then
        let (u, r') := lex_uint r in
        if well_formed_uint u then Some (JNum (- Z.of_uint u), r') else None
      else
        let (u, r') := lex_uint s in
        if well_formed_uint u then Some (JNum (Z.of_uint u), r') else None
  end.

Definition keyword (w : string) (v : json) (s : list ascii) : option (json * list ascii) :=
  match strip_prefix (list_ascii_of_string w) s with
  | Some r => Some (v, r)
  | None => None
  end.

Fixpoint parse_value (fuel : nat) (s : list ascii) {struct fuel}
  : option (json * list ascii) :=
  match fuel with
  | 0 => None
  | S f =>
      match skip_ws s with
      | [] => None
      | c :: r =>
          if Ascii.eqb c "[" then
            match skip_ws r with
            | [] => None
            | c' :: r' =>
                if Ascii.eqb c' "]" then Some (JArr [], r')
                else
                  match parse_elems f r with
                  | Some (vs, r1) => Some (JArr vs, r1)
                  | None => None
                  end
            end
          else if Ascii.eqb c "{" then
            match skip_ws r with
            | [] => None
            | c' :: r' =>
                if Ascii.eqb c' "}" then Some (JObj [], r')
                else
                  match parse_members f r with
                  | Some (ms, r1) => Some (JObj ms, r1)
                  | None => None
                  end
            end
          else if Ascii.eqb c dquote then
            match parse_chars r with
            | Some (cs, r1) => Some (JStr (string_of_list_ascii cs), r1)
            | None => None
            end
          else if Ascii.eqb c "n" then keyword "ull" JNull r
          else if Ascii.eqb c "t" then keyword "rue" (JBool true) r
          else if Ascii.eqb c "f" then keyword "alse" (JBool false) r
          else parse_number (c :: r)
      end
  end

with parse_elems (fuel : nat) (s : list ascii) {struct fuel}
  : option (list json * list ascii) :=
  match fuel with
  | 0 => None
  | S f =>
      match parse_value f s with
      | None => None
      | Some (v, r) =>
          match skip_ws r with
          | [] => None
          | c :: r1 =>
              if Ascii.eqb c "," then
                match parse_elems f r1 with
                | Some (vs, r2) => Some (v :: vs, r2)
                | None => None
                end
              else if Ascii.eqb c "]" then Some ([v], r1)
              else None
          end
      end
  end

with parse_members (fuel : nat) (s : list ascii) {struct fuel}
  : option (list (string * json) * list ascii) :=
  match fuel with
  | 0 => None
  | S f =>
      match skip_ws s with
      | [] => None
      | q :: r =>
          if Ascii.eqb q dquote then
            match parse_chars r with
            | None => None
            | Some (k, r1) =>
                match skip_ws r1 with
                | [] => None
                | c :: r2 =>
                    if Ascii.eqb c ":" then
                      match parse_value f r2 with
                      | None => None
                      | Some (v, r3) =>
                          match skip_ws r3 with
                          | [] => None
                          | d :: r4 =>
                              if Ascii.eqb d "," then
                                match parse_members f r4 with
                                | Some (ms, r5) =>
                                    Some ((string_of_list_ascii k, v) :: ms, r5)
                                | None => None
                                end
                              else if Ascii.eqb d "}" then
                                Some ([(string_of_list_ascii k, v)], r4)
                              else None
                          end
                      end
                    else None
                end
            end
          else None
      end
  end.

(** [JSON.parse]: one value, then nothing but white space.  [None] is the
    [SyntaxError].  The fuel is the length of the text: a level of nesting
    costs two units and at least two characters, an element one unit and
    at least one character. *)
Definition JSON_parse (s : string) : option json :=
  let cs := list_ascii_of_string s in
  match parse_value (S (length cs)) cs with
  | Some (v, r) => match skip_ws r with [] => Some v | _ :: _ => None end
  | None => None
  end.

(** ** Auxiliary definitions for the round trip *)

(** What may follow a number: anything but a digit. *)
Definition no_digit_head (s : list ascii) : Prop :=
  match s with
  | [] => True
  | c :: _ => digit_of c = None
  end.

(** The text of the elements of an array, closing bracket included, and
    of the members of an object, closing brace included. *)
Fixpoint elems_text (l : list json) : list ascii :=
  match l with
  | [] => ["]"]
  | x :: r =>
      stringify_chars x ++
      match r with
      | [] => ["]"]
      | _ :: _ => "," :: elems_text r
      end
  end.

Fixpoint members_text (ms : list (string * json)) : list ascii :=
  match ms with
  | [] => ["}"]
  | (k, x) :: r =>
      quote k ++ ":" :: stringify_chars x ++
      match r with
      | [] => ["}"]
      | _ :: _ => "," :: members_text r
      end
  end.

(** The first character of a printed value: never white space, never a
    closing bracket, and it selects the branch of [parse_value]. *)
Definition opens_value (c : ascii) : Prop :=
  is_ws c = false /\ Ascii.eqb c "]" = false /\ Ascii.eqb c "}" = false.

(** The statement proved by induction on the value. *)
Definition reads_back (v : json) : Prop :=
  forall fuel rest,
    no_digit_head rest ->
    length (stringify_chars v) <= fuel ->
    parse_value fuel (stringify_chars v ++ rest) = Some (v, rest).

(** A result that does not depend on the fuel: the parser has moved
    forward, and any fuel that covers the characters it has read gives the
    same result. *)
Definition settled {A : Type}
    (parse : nat -> list ascii -> option (A * list ascii))
    (s : list ascii) (x : A) (rest : list ascii) : Prop :=
  length rest < length s /\
  forall fuel, length s - length rest <= fuel -> parse fuel s = Some (x, rest).

End Json.

(* ===================================================================== *)
(** * Orders and item snapshots *)
(* ===================================================================== *)

Module Data.
Import Json.

(** A row of table [orders], as the server stores it and as the client
    receives it ([interface Order] declares the same columns but
    [user_id]). *)
Record Order : Type := {
  id : Z;
  user_id : option Z;
  items : string;
  total : Z;
  status : string;
  address : string;
  contact : string;
  created_at : string
}.

(** A line of an item snapshot, with the two properties the aggregations
    read ([item.name], [item.quantity]). *)
Record Item : Type := {
  name : string;
  quantity : Z
}.

(** The two exceptions that reading a snapshot can raise. *)
Inductive exn : Type :=
| SyntaxError
| TypeError.

Inductive result (A : Type) : Type :=
| Ok (a : A)
| Throw (e : exn).
Arguments Ok {A} a.
Arguments Throw {A} e.

(** Property access [o.k] on a parsed object: the last member named [k]. *)
Fixpoint get_field (k : string) (ms : list (string * json)) : option json :=
  match ms with
  | [] => None
  | (k', v) :: r =>
      match get_field k r with
      | Some w => Some w
      | None => if String.eqb k' k then Some v else None
      end
  end.

Definition item_of_json (v : json) : option Item :=
  match v with
  | JObj ms =>
      match get_field "name" ms, get_field "quantity" ms with
      | Some (JStr n), Some (JNum q) => Some {| name := n; quantity := q |}
      | _, _ => None
      end
  | _ => None
  end.

Fixpoint items_of_elems (l : list json) : option (list Item) :=
  match l with
  | [] => Some []
  | x :: r =>
      match item_of_json x, items_of_elems r with
      | Some it, Some its => Some (it :: its)
      | _, _ => None
      end
  end.

(** The typed view of a parsed snapshot, for [(item: any)]: an array of
    objects that have a string [name] and a whole-number [quantity] (other
    properties, such as [price], stay in the JSON value and are not read
    here).  A value that is not an array has no [forEach], which is a
    [TypeError]; an array with a line of another shape goes through the
    dynamic coercions of JavaScript, which the typed embedding does not
    represent, and is treated as a [TypeError] too. *)
Definition items_of_json (v : json) : option (list Item) :=
  match v with
  | JArr l => items_of_elems l
  | _ => None
  end.

(** [JSON.parse(order.items)] followed by the traversal of the lines. *)
Definition read_items (text : string) : result (list Item) :=
  match JSON_parse text with
  | None => Throw SyntaxError
  | Some v =>
      match items_of_json v with
      | Some its => Ok its
      | None => Throw TypeError
      end
  end.

(** The snapshot of a list of lines, as a JSON value. *)
Definition item_to_json (price : Z) (it : Item) : json :=
  JObj [("name"%string, JStr (name it));
        ("price"%string, JNum price);
        ("quantity"%string, JNum (quantity it))].

Local Open Scope Z_scope.

(** [Record<string, number>] in insertion order. *)
Fixpoint assoc_get (m : list (string * Z)) (k : string) : option Z :=
  match m with
  | [] => None
  | (k', v) :: r => if String.eqb k' k then Some v else assoc_get r k
  end.

(** [m[k] = v]: an existing key keeps its place, a new key goes last. *)
Fixpoint assoc_set (m : list (string * Z)) (k : string) (v : Z)
  : list (string * Z) :=
  match m with
  | [] => [(k, v)]
  | (k', v') :: r =>
      if String.eqb k' k then (k', v) :: r else (k', v') :: assoc_set r k v
  end.

(** [m[k] || 0] *)
Definition get_or_0 (m : list (string * Z)) (k : string) : Z :=
  match assoc_get m k with
  | Some v => v
  | None => 0
  end.

(** [Object.keys(m)] *)
Definition keys (m : list (string * Z)) : list string := map fst m.

End Data.

(* ===================================================================== *)
(** * The dashboard of the admin panel (client side) *)
(* ===================================================================== *)

Module Client.
Import Json Data.

Definition lower_char (c : ascii) : ascii :=
  let n := nat_of_ascii c in
  if Nat.leb 65 n && Nat.leb n 90 then ascii_of_nat (n + 32) else c.

(** [String.prototype.toLowerCase] on the 8-bit characters. *)
Fixpoint toLowerCase (s : string) : string :=
  match s with
  | EmptyString => EmptyString
  | String c r => String (lower_char c) (toLowerCase r)
  end.

Local Open Scope Z_scope.

(** The local variables of [dashboardStats] that the loop updates. *)
Record Locals : Type := {
  var_totalRevenue : Z;
  var_delivered : nat;
  var_pending : nat;
  monthlySales : gmap string Z;
  productCount : list (string * Z)
}.

(** The object [dashboardStats] returns. *)
Record DashboardStats : Type := {
  totalOrders : nat;
  totalRevenue : Z;
  delivered : nat;
  pending : nat;
  bestSeller : string;
  salesChartData : list (string * Z);
  statusChartData : list (string * nat * string)
}.

Definition is_delivered (order : Order) : bool :=
  String.eqb (toLowerCase (status order)) "delivered".

(** [productCount[item.name] = (productCount[item.name] || 0) + item.quantity] *)
Definition add_quantity (pc : list (string * Z)) (item : Item)
  : list (string * Z) :=
  assoc_set pc (name item) (get_or_0 pc (name item) + quantity item).

(** The body of the [try] block. *)
Definition tally_items (pc : list (string * Z)) (text : string)
  : result (list (string * Z)) :=
  match read_items text with
  | Ok its => Ok (fold_left add_quantity its pc)
  | Throw e => Throw e
  end.

(** [try { ... } catch (e) {}] *)
Definition try_tally_items (pc : list (string * Z)) (text : string)
  : list (string * Z) :=
  match tally_items pc text with
  | Ok pc' => pc'
  | Throw _ => pc
  end.

(** [a > b ? a : b] over the counts, the callback of [reduce]. *)
Definition pick (pc : list (string * Z)) (a b : string) : string :=
  if Z.gtb (get_or_0 pc a) (get_or_0 pc b) then a else b.

Definition best_seller_of (pc : list (string * Z)) : string :=
  match keys pc with
  | [] => "Loading..."
  | k :: ks => fold_left (pick pc) ks k
  end.

Section dashboard.

(** [new Date(created_at).toLocaleString('default', { month: 'short' })] *)
Variable month_short : string -> string.

Definition filteredOrders (selectedMonth : string) (adminOrders : list Order)
  : list Order :=
  if String.eqb selectedMonth "All" then adminOrders
  else
    List.filter
      (fun order => String.eqb (month_short (created_at order)) selectedMonth)
      adminOrders.

(** The callback of [filteredOrders.forEach]. *)
Definition step (st : Locals) (order : Order) : Locals :=
  let monthStr := month_short (created_at order) in
  {| var_totalRevenue := var_totalRevenue st + total order;
     var_delivered :=
       if is_delivered order then S (var_delivered st) else var_delivered st;
     var_pending :=
       if is_delivered order then var_pending st else S (var_pending st);
     monthlySales :=
       match monthlySales st !! monthStr with
       | Some v => <[monthStr := v + total order]> (monthlySales st)
       | None => <[monthStr := total order]> (monthlySales st)
       end;
     productCount := try_tally_items (productCount st) (items order) |}.

Definition initial : Locals :=
  {| var_totalRevenue := 0;
     var_delivered := 0;
     var_pending := 0;
     monthlySales := <["Jan" := 0]> (<["Feb" := 0]> (<["Mar" := 0]> ∅));
     productCount := [] |}.

Definition run (filtered : list Order) : Locals := fold_left step filtered initial.

Definition dashboardStats (filtered : list Order) : DashboardStats :=
  let st := run filtered in
  {| totalOrders := length filtered;
     totalRevenue := var_totalRevenue st;
     delivered := var_delivered st;
     pending := var_pending st;
     bestSeller := best_seller_of (productCount st);
     salesChartData :=
       map (fun month =>
              (month, match monthlySales st !! month with
                      | Some v => v
                      | None => 0
                      end))
           ["Jan"; "Feb"; "Mar"]%string;
     statusChartData :=
       [("Delivered", var_delivered st, "#5C4033");
        ("Pending", var_pending st, "#c4a484")]%string |}.

End dashboard.

End Client.

(* ===================================================================== *)
(** * The Express server *)
(* ===================================================================== *)

(** The payload that [jwt.sign] embeds at login and the outcomes of
    [jwt.verify]. *)
Module Jwt.

Record payload : Type := {
  id : Z;
  role : string;
  name : string
}.

Inductive error : Type :=
| TokenExpiredError
| JsonWebTokenError
| NotBeforeError.

Inductive verified : Type :=
| Invalid (err : error)
| Valid (user : payload).

End Jwt.

Module Server.
Import Json Data.
Local Open Scope Z_scope.

Inductive Response : Type :=
| SendStatus (code : nat)
| SendJson (code : nat) (body : json)
| Uncaught (e : exn).

(** The HTTP status of a response; an exception that escapes a handler
    is answered 500 by Express. *)
Definition status_code (r : Response) : nat :=
  match r with
  | SendStatus code => code
  | SendJson code _ => code
  | Uncaught _ => 500
  end.

(** ** Access control *)

Record Request : Type := {
  authorization : option string;
  user : option Jwt.payload
}.

Inductive outcome : Type :=
| Respond (r : Response)
| Next (req : Request).

Definition middleware : Type := Request -> outcome.

(** [String.prototype.split] on a one-character separator. *)
Fixpoint split (sep : ascii) (s : string) : list string :=
  match s with
  | EmptyString => [EmptyString]
  | String c r =>
      if Ascii.eqb c sep then EmptyString :: split sep r
      else
        match split sep r with
        | [] => [String c EmptyString]
        | w :: ws => String c w :: ws
        end
  end.

(** A string as a condition: the empty string is falsy. *)
Definition truthy (s : string) : bool := negb (String.eqb s "").

(** [authHeader && authHeader.split(' ')[1]], [None] when the result is
    falsy. *)
Definition token_of (req : Request) : option string :=
  match authorization req with
  | None => None
  | Some authHeader =>
      if truthy authHeader then
        match nth_error (split " " authHeader) 1 with
        | Some token => if truthy token then Some token else None
        | None => None
        end
      else None
  end.

Section access_control.

(** [jwt.verify(token, JWT_SECRET, callback)] at the time of the request. *)
Variable jwt_verify : string -> Jwt.verified.

Definition authenticateToken : middleware := fun req =>
  match token_of req with
  | None => Respond (SendStatus 401)
  | Some token =>
      match jwt_verify token with
      | Jwt.Invalid _ => Respond (SendStatus 403)
      | Jwt.Valid u =>
          Next {| authorization := authorization req; user := Some u |}
      end
  end.

Definition isAdmin : middleware := fun req =>
  match user req with
  | None => Respond (Uncaught TypeError)
  | Some u =>
      if negb (String.eqb (Jwt.role u) "admin") then Respond (SendStatus 403)
      else Next req
  end.

(** [upload.single("image")] stores the uploaded file and goes on. *)
Definition upload_single : middleware := fun req => Next req.

Inductive Route : Type :=
| POST_auth_signup
| POST_auth_login
| GET_products
| POST_products
| DELETE_products
| PUT_products
| POST_orders
| GET_admin_orders
| GET_admin_stats
| GET_reviews
| POST_reviews
| GET_gallery
| POST_gallery
| DELETE_gallery
| GET_settings
| POST_settings_hero.

(** The middleware registered before the handler of each route. *)
Definition middlewares (r : Route) : list middleware :=
  match r with
  | POST_products => [authenticateToken; isAdmin; upload_single]
  | DELETE_products => [authenticateToken; isAdmin]
  | PUT_products => [authenticateToken; isAdmin; upload_single]
  | GET_admin_orders => [authenticateToken; isAdmin]
  | GET_admin_stats => [authenticateToken; isAdmin]
  | POST_gallery => [authenticateToken; isAdmin; upload_single]
  | DELETE_gallery => [authenticateToken; isAdmin]
  | POST_settings_hero => [authenticateToken; isAdmin; upload_single]
  | POST_auth_signup | POST_auth_login | GET_products | POST_orders
  | GET_reviews | POST_reviews | GET_gallery | GET_settings => []
  end.

(** Express runs the chain until a middleware responds. *)
Fixpoint run_chain (ms : list middleware) (req : Request) : outcome :=
  match ms with
  | [] => Next req
  | m :: rest =>
      match m req with
      | Respond r => Respond r
      | Next req' => run_chain rest req'
      end
  end.

(** What happens to a request before the handler of the route: a
    response, or the request as the handler receives it. *)
Definition dispatch (r : Route) (req : Request) : outcome :=
  run_chain (middlewares r) req.

End access_control.

(** The operations the specification calls privileged. *)
Definition privileged (r : Route) : bool :=
  match r with
  | GET_admin_orders | GET_admin_stats
  | POST_products | PUT_products | DELETE_products
  | POST_gallery | DELETE_gallery
  | POST_settings_hero => true
  | _ => false
  end.

(** ** The order ledger *)

(** Table [orders] and its AUTOINCREMENT counter. *)
Record Db : Type := {
  table_orders : list Order;
  seq_orders : Z
}.

(** [req.body] of [POST /api/orders]. *)
Record OrderBody : Type := {
  body_items : json;
  body_total : Z;
  body_address : string;
  body_contact : string;
  body_user_id : option Z
}.

(** [user_id || null] *)
Definition or_null (user_id : option Z) : option Z :=
  match user_id with
  | Some 0 => None
  | other => other
  end.

(** The row that the INSERT statement adds; [status] and [created_at]
    take their column defaults. *)
Definition new_order (now : string) (db : Db) (body : OrderBody) : Order :=
  {| id := seq_orders db + 1;
     user_id := or_null (body_user_id body);
     items := JSON_stringify (body_items body);
     total := body_total body;
     status := "pending";
     address := body_address body;
     contact := body_contact body;
     created_at := now |}.

(** [app.post("/api/orders", ...)]; [now] is CURRENT_TIMESTAMP. *)
Definition post_orders (now : string) (body : OrderBody) (db : Db)
  : Db * Response :=
  let row := new_order now db body in
  ({| table_orders := table_orders db ++ [row]; seq_orders := id row |},
   SendJson 200 (JObj [("id"%string, JNum (id row))])).

(** ** Admin statistics *)







End Server.

(* ===================================================================== *)
(** * Reference notions used to state the properties *)
(* ===================================================================== *)

Module Spec.
Import Json Data.
Local Open Scope Z_scope.

Definition Zsum (l : list Z) : Z := fold_right Z.add 0 l.







(** The validation of the specification for [placeOrder]: a non-empty
    list of lines, each quantity a positive integer, non-empty address and
    contact. *)
Definition valid_order_body (body_items : json) (address contact : string)
  : bool :=
  match items_of_json body_items with
  | Some [] => false
  | Some its =>
      forallb (fun it => Z.ltb 0 (quantity it)) its
      && negb (String.eqb address "") && negb (String.eqb contact "")
  | None => false
  end.

(** The orders of month [m], for a given reading of the timestamps, and
    their revenue. *)
Definition month_orders (month_short : string -> string) (m : string)
    (orders : list Order) : list Order :=
  List.filter (fun o => String.eqb (month_short (created_at o)) m) orders.

Definition month_revenue (month_short : string -> string) (m : string)
    (orders : list Order) : Z :=
  Zsum (map total (month_orders month_short m orders)).

Definition seeded (m : string) : bool :=
  String.eqb m "Jan" || String.eqb m "Feb" || String.eqb m "Mar".



End Spec.

(* ===================================================================== *)
(** * Sample data *)
(* ===================================================================== *)

Module Sample.
Import Json Data.
Local Open Scope Z_scope.

(** The month abbreviation in an English locale of a timestamp written by
    SQLite ([YYYY-MM-DD HH:MM:SS]). *)
Definition month_short_en (created_at : string) : string :=
  let mm := substring 5 2 created_at in
  match
    find (fun kv => String.eqb (fst kv) mm)
      [("01", "Jan"); ("02", "Feb"); ("03", "Mar"); ("04", "Apr");
       ("05", "May"); ("06", "Jun"); ("07", "Jul"); ("08", "Aug");
       ("09", "Sep"); ("10", "Oct"); ("11", "Nov"); ("12", "Dec")]%string
  with
  | Some kv => snd kv
  | None => "Invalid Date"
  end.

Definition snapshot (lines : list (string * Z * Z)) : string :=
  JSON_stringify
    (JArr (map (fun l => item_to_json (snd (fst l))
                           {| name := fst (fst l); quantity := snd l |})
               lines)).

Definition order (n : Z) (lines : list (string * Z * Z)) (amount : Z)
    (st : string) (at_ : string) : Order :=
  {| id := n; user_id := Some 7; items := snapshot lines; total := amount;
     status := st; address := "12 Station Road, Hubli";
     contact := "9000000000"; created_at := at_ |}.

(** Three orders of January: 79, 89 (delivered) and 200 (pending). *)
Definition january : list Order :=
  [order 1 [("NIORA RED WINE SOAP", 79, 1)] 79 "pending" "2026-01-05 10:00:00";
   order 2 [("NIORA CHARCOAL SOAP", 89, 1)] 89 "delivered" "2026-01-12 18:30:00";
   order 3 [("NIORA SIGNATURE SOAP", 200, 1)] 200 "pending" "2026-01-20 09:15:00"]%string.

(** An order of February, to be filtered out. *)
Definition february : Order :=
  order 4 [("NIORA SHUDDHA GLOW", 89, 2)] 178 "Delivered" "2026-02-02 08:00:00"%string.

(** An order of April. *)
Definition april : Order :=
  order 5 [("NIORA RED WINE SOAP", 75, 2)] 150 "pending" "2026-04-09 12:00:00"%string.








(** A verification that knows three tokens. *)
Definition verify_sample (token : string) : Jwt.verified :=
  if String.eqb token "admin-token" then
    Jwt.Valid {| Jwt.id := 1; Jwt.role := "admin"; Jwt.name := "NIORA Admin" |}
  else if String.eqb token "customer-token" then
    Jwt.Valid {| Jwt.id := 7; Jwt.role := "customer"; Jwt.name := "Asha" |}
  else if String.eqb token "old-token" then Jwt.Invalid Jwt.TokenExpiredError
  else Jwt.Invalid Jwt.JsonWebTokenError.

Definition request (header : option string) : Server.Request :=
  {| Server.authorization := header; Server.user := None |}.

End Sample.


(* ===================================================================== *)
(** * The shop front (client side): cart, checkout, search, export *)
(* ===================================================================== *)

(** [interface Product], a row of table [products] as the client
    receives it. *)
Module Product.

Record t : Type := {
  id : Z;
  name : string;
  price : Z;
  description : string;
  benefits : string;
  image : string
}.

End Product.

(** [interface CartItem extends Product]. *)
Module CartItem.

Record t : Type := {
  id : Z;
  name : string;
  price : Z;
  description : string;
  benefits : string;
  image : string;
  quantity : Z
}.

End CartItem.

(** The [user] object that the login endpoint returns and the client
    keeps. *)
Module UserInfo.

Record t : Type := {
  id : Z;
  name : string;
  role : string
}.

End UserInfo.

Module Shop.
Import Json Data.
Local Open Scope Z_scope.

(** ** The cart *)

(** [{ ...product, quantity: 1 }] *)
Definition new_item (product : Product.t) : CartItem.t :=
  {| CartItem.id := Product.id product;
     CartItem.name := Product.name product;
     CartItem.price := Product.price product;
     CartItem.description := Product.description product;
     CartItem.benefits := Product.benefits product;
     CartItem.image := Product.image product;
     CartItem.quantity := 1 |}.

(** [{ ...item, quantity: item.quantity + 1 }] *)
Definition one_more (item : CartItem.t) : CartItem.t :=
  {| CartItem.id := CartItem.id item;
     CartItem.name := CartItem.name item;
     CartItem.price := CartItem.price item;
     CartItem.description := CartItem.description item;
     CartItem.benefits := CartItem.benefits item;
     CartItem.image := CartItem.image item;
     CartItem.quantity := CartItem.quantity item + 1 |}.

(** The state update of [addToCart]. *)
Definition addToCart (product : Product.t) (prev : list CartItem.t)
  : list CartItem.t :=
  match find (fun item => Z.eqb (CartItem.id item) (Product.id product)) prev with
  | Some existing =>
      map (fun item =>
             if Z.eqb (CartItem.id item) (Product.id product)
             then one_more item else item)
          prev
  | None => prev ++ [new_item product]
  end.

(** The state update of [removeFromCart]. *)
Definition removeFromCart (id : Z) (prev : list CartItem.t) : list CartItem.t :=
  List.filter (fun item => negb (Z.eqb (CartItem.id item) id)) prev.

(** [cart.reduce((sum, item) => sum + item.price * item.quantity, 0)] *)
Definition cartTotal (cart : list CartItem.t) : Z :=
  fold_left (fun sum item => sum + CartItem.price item * CartItem.quantity item)
            cart 0.


(** What the user does to the cart. *)
Inductive cart_event : Type :=
| Add (product : Product.t)
| Remove (id : Z).

Definition cart_step (cart : list CartItem.t) (ev : cart_event)
  : list CartItem.t :=
  match ev with
  | Add product => addToCart product cart
  | Remove id => removeFromCart id cart
  end.

(** The cart after a sequence of events, from the empty cart the page
    starts with. *)
Definition cart_after (events : list cart_event) : list CartItem.t :=
  fold_left cart_step events [].

(** ** Checkout *)

(** A cart line as [JSON.stringify] sees it: the columns of the product
    in the order of the table, then [quantity]. *)
Definition cart_item_to_json (item : CartItem.t) : json :=
  JObj [("id"%string, JNum (CartItem.id item));
        ("name"%string, JStr (CartItem.name item));
        ("price"%string, JNum (CartItem.price item));
        ("description"%string, JStr (CartItem.description item));
        ("benefits"%string, JStr (CartItem.benefits item));
        ("image"%string, JStr (CartItem.image item));
        ("quantity"%string, JNum (CartItem.quantity item))].

(** The object given to [JSON.stringify] by [handleCheckout];
    [user_id: user?.id] is left out by [JSON.stringify] when there is no
    user. *)
Definition checkout_body (cart : list CartItem.t) (address contact : string)
    (user : option UserInfo.t) : json :=
  JObj ([("items"%string, JArr (map cart_item_to_json cart));
         ("total"%string, JNum (cartTotal cart));
         ("address"%string, JStr address);
         ("contact"%string, JStr contact)]
        ++ match user with
           | Some u => [("user_id"%string, JNum (UserInfo.id u))]
           | None => []
           end).

(** A call of [fetch]. *)
Record Fetch : Type := {
  url : string;
  method : string;
  content_type : option string;
  authorization : option string;
  body : option string
}.

(** A value used as a condition: [null] and the empty string are falsy. *)
Definition present (s : option string) : option string :=
  match s with
  | Some v => if String.eqb v "" then None else Some v
  | None => None
  end.

(** [`Bearer ${token}`] *)
Definition bearer (token : string) : string := "Bearer " ++ token.

(** [handleCheckout]: the request it sends, if any.  [address] and
    [contact] are the answers to the two [prompt]s ([None] when the
    dialog is cancelled). *)
Definition handleCheckout (token : option string) (user : option UserInfo.t)
    (cart : list CartItem.t) (address contact : option string)
  : option Fetch :=
  match present token with
  | None => None
  | Some tok =>
      match present address, present contact with
      | Some a, Some c =>
          Some {| url := "/api/orders";
                  method := "POST";
                  content_type := Some "application/json"%string;
                  authorization := Some (bearer tok);
                  body := Some (JSON_stringify (checkout_body cart a c user)) |}
      | _, _ => None
      end
  end.

(** The two properties of a cart line that the aggregations read. *)
Definition line_of_cart (item : CartItem.t) : Item :=
  {| name := CartItem.name item; quantity := CartItem.quantity item |}.

(** The carts that the page can hold: no two lines for one product, every
    quantity at least 1. *)
Definition cart_ok (cart : list CartItem.t) : Prop :=
  NoDup (map CartItem.id cart) /\
  Forall (fun item => 1 <= CartItem.quantity item) cart.

(** ** Product search *)

Fixpoint starts_with (s p : string) : bool :=
  match p, s with
  | EmptyString, _ => true
  | String a p', String b s' => Ascii.eqb a b && starts_with s' p'
  | String _ _, EmptyString => false
  end.



(** ** Export of the orders *)






Section export.

(** [toLocaleString('default', { month: 'short' })] and [toLocaleString()]
    of [new Date(created_at)]. *)
Variable month_short : string -> string.
Variable date_string : string -> string.



End export.

End Shop.

(* ===================================================================== *)
(** * The other tables of the server: accounts, catalogue, gallery,
      settings, reviews *)
(* ===================================================================== *)

Module Store.
Import Json Data Server.
Local Open Scope Z_scope.

(** ** Tables with an AUTOINCREMENT key *)

(** The rows with their ids, in insertion order, and the largest id ever
    given (table [sqlite_sequence]). *)
Record Table (A : Type) : Type := {
  rows : list (Z * A);
  seq : Z
}.
Arguments rows {A} t.
Arguments seq {A} t.

Definition empty_table {A : Type} : Table A := {| rows := []; seq := 0 |}.

(** The id of the next row: one more than the largest id, present or
    past. *)
Definition next_id {A : Type} (t : Table A) : Z :=
  fold_right Z.max (seq t) (map fst (rows t)) + 1.

(** INSERT; [lastInsertRowid] is [next_id]. *)
Definition insert {A : Type} (a : A) (t : Table A) : Table A :=
  {| rows := rows t ++ [(next_id t, a)]; seq := next_id t |}.

(** DELETE ... WHERE id = ?, for a parameter that SQLite reads as the
    integer [key] ([None]: it equals no integer). *)
Definition delete {A : Type} (key : option Z) (t : Table A) : Table A :=
  match key with
  | Some k =>
      {| rows := List.filter (fun r => negb (Z.eqb (fst r) k)) (rows t);
         seq := seq t |}
  | None => t
  end.

(** SELECT COUNT( * ) *)
Definition count {A : Type} (t : Table A) : nat := length (rows t).

(** What happens to a table: a row is inserted, or the row of an id is
    deleted. *)
Inductive table_event (A : Type) : Type :=
| Insert (a : A)
| Delete (key : option Z).
Arguments Insert {A} a.
Arguments Delete {A} key.

Definition table_step {A : Type} (t : Table A) (ev : table_event A) : Table A :=
  match ev with
  | Insert a => insert a t
  | Delete key => delete key t
  end.

(** The table after a sequence of events, from its creation. *)
Definition table_after {A : Type} (events : list (table_event A)) : Table A :=
  fold_left table_step events empty_table.

(** The ids of a table are distinct and none is beyond the counter. *)
Definition ids_ok {A : Type} (t : Table A) : Prop :=
  NoDup (map fst (rows t)) /\
  Forall (fun i => 1 <= i <= seq t) (map fst (rows t)) /\
  0 <= seq t.

(** ** Rows *)

Record User : Type := {
  user_name : string;
  email : string;
  password : string;
  role : string
}.

Record ProductRow : Type := {
  name : string;
  price : Z;
  description : string;
  benefits : string;
  image : string
}.

Record Review : Type := {
  review_user_name : string;
  rating : Z;
  comment : string
}.

(** The database but for table [orders]. *)
Record Tables : Type := {
  users : Table User;
  products : Table ProductRow;
  gallery : Table string;
  settings : gmap string string;
  reviews : Table Review
}.

Definition fresh : Tables :=
  {| users := empty_table;
     products := empty_table;
     gallery := empty_table;
     settings := ∅;
     reviews := empty_table |}.

(** A statement that can fail on a UNIQUE or PRIMARY KEY constraint. *)
Inductive sql (A : Type) : Type :=
| Done (a : A)
| ConstraintError.
Arguments Done {A} a.
Arguments ConstraintError {A}.

Definition bind {A B : Type} (x : sql A) (f : A -> sql B) : sql B :=
  match x with
  | Done a => f a
  | ConstraintError => ConstraintError
  end.

(** INSERT INTO settings: [key] is the primary key. *)
Definition insert_setting (key value : string) (m : gmap string string)
  : sql (gmap string string) :=
  match m !! key with
  | Some _ => ConstraintError
  | None => Done (<[key := value]> m)
  end.

(** The email addresses of the accounts. *)
Definition emails (t : Table User) : list string :=
  map (fun r => email (snd r)) (rows t).

Definition has_email (e : string) (t : Table User) : bool :=
  existsb (fun r => String.eqb (email (snd r)) e) (rows t).

(** INSERT INTO users: [email] is UNIQUE. *)
Definition insert_user (u : User) (t : Table User) : sql (Table User) :=
  if has_email (email u) t then ConstraintError else Done (insert u t).

Definition is_admin_row (r : Z * User) : bool :=
  String.eqb (role (snd r)) "admin".

(** ** Start of the server *)

Definition default_hero_image : string :=
  "https://images.unsplash.com/photo-1604908177522-4028c0f9b0db?auto=format&fit=crop&w=1920&q=80".

Definition seedProducts : list ProductRow :=
  [{| name := "NIORA RED WINE SOAP";
      price := 79;
      description := "Luxury care. Youthful glow. Infused with red wine-inspired antioxidant care, this soap helps support smoother, fresher-looking skin while maintaining a soft and radiant finish.";
      benefits := "🍇 Rich in antioxidant-inspired care,✨ Helps reduce appearance of fine lines,💧 Keeps skin soft & hydrated,🌸 Promotes radiant, youthful glow,🧴 Gentle for daily cleansing";
      image := "https://images.unsplash.com/photo-1606813902914-cb5e3a6a7d26" |};
   {| name := "NIORA SHUDDHA GLOW";
      price := 89;
      description := "Sun tan removal. Natural glow restoration. Niora Shuddha Glow Soap is specially crafted to help reduce tanning caused by sun exposure while restoring your skin’s natural brightness.";
      benefits := "☀️ Helps reduce tan appearance,✨ Enhances natural glow,🌿 Removes dirt & impurities,💧 Keeps skin soft & smooth,🧼 Suitable for regular use";
      image := "https://images.unsplash.com/photo-1585386959984-a4155224a1ad" |};
   {| name := "NIORA CHARCOAL SOAP";
      price := 89;
      description := "Deep detox. Clear confidence. Infused with charcoal to deeply cleanse pores and remove excess oil for clearer-looking skin.";
      benefits := "🖤 Draws out dirt & impurities,🌫 Helps unclog pores,✨ Reduces excess oil,🧼 Promotes clearer skin look,🌿 Ideal for oily & acne-prone skin";
      image := "https://images.unsplash.com/photo-1585386959984-a4155224a1ad" |};
   {| name := "NIORA SIGNATURE SOAP";
      price := 200;
      description := "Intensive care. Visible nourishment. A rich, concentrated formula crafted with premium skin-loving ingredients to deeply cleanse, nourish, and restore skin vitality.";
      benefits := "💎 Deeply nourishes & revitalizes skin,✨ Enhances skin texture & smoothness,💧 Supports healthy moisture balance,🌿 Promotes firmer, radiant-looking skin,🧴 Ideal as a weekly treatment bar (2–3x use)";
      image := "https://images.unsplash.com/photo-1604908177522-4028c0f9b0db" |}]%string.

Definition seedGallery : list string :=
  ["https://picsum.photos/seed/niora1/400/600"; "https://picsum.photos/seed/niora2/400/600"; "https://picsum.photos/seed/niora3/400/600"; "https://picsum.photos/seed/niora4/400/600"]%string.

Section platform.

(** [bcrypt.hashSync(password, 10)] with the salt it draws,
    [bcrypt.compareSync(password, hash)] and
    [jwt.sign(payload, JWT_SECRET, { expiresIn: "1d" })] at the time of
    the request. *)
Variable hashSync : string -> string -> string.
Variable compareSync : string -> string -> bool.
Variable jwt_sign : Jwt.payload -> string.

(** The statements run when the module is loaded, after the CREATE TABLE
    IF NOT EXISTS; [ConstraintError] is a start that throws. *)
Definition startup (salt : string) (db : Tables) : sql Tables :=
  bind (if Nat.eqb (size (settings db)) 0
        then insert_setting "hero_image" default_hero_image (settings db)
        else Done (settings db))
  (fun settings1 =>
  bind (match settings1 !! "seeded"%string with
        | None =>
            let products1 :=
              if Nat.eqb (count (products db)) 0
              then fold_left (fun t p => insert p t) seedProducts (products db)
              else products db in
            let gallery1 :=
              if Nat.eqb (count (gallery db)) 0
              then fold_left (fun t img => insert img t) seedGallery (gallery db)
              else gallery db in
            bind (insert_setting "seeded" "true" settings1)
              (fun settings2 => Done (products1, gallery1, settings2))
        | Some _ => Done (products db, gallery db, settings1)
        end)
  (fun pgs =>
  bind (if Nat.eqb (length (List.filter is_admin_row (rows (users db)))) 0
        then insert_user {| user_name := "NIORA Admin";
                            email := "admin@niora.com";
                            password := hashSync salt "BEANIORA";
                            role := "admin" |}
                         (users db)
        else Done (users db))
  (fun users1 =>
  Done {| users := users1;
          products := fst (fst pgs);
          gallery := snd (fst pgs);
          settings := snd pgs;
          reviews := reviews db |}))).

(** ** Accounts *)

Record SignupBody : Type := {
  signup_name : string;
  signup_email : string;
  signup_password : string
}.

Record LoginBody : Type := {
  login_email : string;
  login_password : string
}.

(** [app.post("/api/auth/signup", ...)]: the [role] column takes its
    default; any exception is answered 400. *)
Definition signup (salt : string) (body : SignupBody) (t : Table User)
  : Table User * Response :=
  match insert_user {| user_name := signup_name body;
                       email := signup_email body;
                       password := hashSync salt (signup_password body);
                       role := "customer" |} t with
  | Done t' =>
      (t', SendJson 200 (JObj [("message"%string, JStr "Signup successful")]))
  | ConstraintError =>
      (t, SendJson 400 (JObj [("error"%string, JStr "User already exists")]))
  end.

(** SELECT * FROM users WHERE email = ?, first row. *)
Definition user_by_email (e : string) (t : Table User) : option (Z * User) :=
  find (fun r => String.eqb (email (snd r)) e) (rows t).

Definition token_payload (r : Z * User) : Jwt.payload :=
  {| Jwt.id := fst r; Jwt.role := role (snd r); Jwt.name := user_name (snd r) |}.

Definition invalid_credentials : Response :=
  SendJson 401 (JObj [("error"%string, JStr "Invalid credentials")]).

(** [app.post("/api/auth/login", ...)] *)
Definition login (body : LoginBody) (t : Table User) : Response :=
  match user_by_email (login_email body) t with
  | None => invalid_credentials
  | Some r =>
      if negb (compareSync (login_password body) (password (snd r)))
      then invalid_credentials
      else
        SendJson 200
          (JObj [("token"%string, JStr (jwt_sign (token_payload r)));
                 ("user"%string,
                  JObj [("id"%string, JNum (fst r));
                        ("name"%string, JStr (user_name (snd r)));
                        ("role"%string, JStr (role (snd r)))])])
  end.

End platform.

(** Whether the table holds an administrator. *)
Definition has_admin (t : Table User) : bool :=
  negb (Nat.eqb (length (List.filter is_admin_row (rows t))) 0).

(** The settings that a start leaves: the default hero image when there
    was no setting at all, and the marker "seeded". *)
Definition settings_after_start (m : gmap string string) : gmap string string :=
  let m1 := if Nat.eqb (size m) 0
            then <["hero_image"%string := default_hero_image]> m else m in
  match m1 !! "seeded"%string with
  | None => <["seeded"%string := "true"%string]> m1
  | Some _ => m1
  end.

(** ** Catalogue, gallery, settings, reviews *)

Definition success : Response :=
  SendJson 200 (JObj [("success"%string, JBool true)]).

Definition no_image : Response :=
  SendJson 400 (JObj [("error"%string, JStr "No image uploaded")]).

(** [app.delete("/api/products/:id", ...)] and
    [app.delete("/api/gallery/:id", ...)], after their middleware; [key] is
    [req.params.id] as SQLite reads it. *)
Definition delete_row {A : Type} (key : option Z) (t : Table A)
  : Table A * Response :=
  (delete key t, success).

(** [`/uploads/${req.file.filename}`] *)
Definition upload_path (filename : string) : string := "/uploads/" ++ filename.

(** [app.post("/api/gallery", ...)], after its middleware; [file] is
    [req.file]. *)
Definition post_gallery (file : option string) (t : Table string)
  : Table string * Response :=
  match file with
  | None => (t, no_image)
  | Some filename =>
      (insert (upload_path filename) t,
       SendJson 200 (JObj [("id"%string, JNum (next_id t));
                           ("image"%string, JStr (upload_path filename))]))
  end.

(** [app.post("/api/settings/hero", ...)]: INSERT OR REPLACE. *)
Definition post_settings_hero (file : option string) (m : gmap string string)
  : gmap string string * Response :=
  match file with
  | None => (m, no_image)
  | Some filename =>
      (<["hero_image"%string := upload_path filename]> m,
       SendJson 200 (JObj [("success"%string, JBool true);
                           ("image"%string, JStr (upload_path filename))]))
  end.

(** [settingsMap] of [GET /api/settings]: the rows folded into an object;
    the keys are unique, the object is the table. *)
Definition get_settings (m : gmap string string) : gmap string string := m.

(** [fetchSettings]: [if (data.hero_image) setHeroImage(data.hero_image)]. *)
Definition fetchSettings (data : gmap string string) (heroImage : string)
  : string :=
  match data !! "hero_image"%string with
  | Some v => if String.eqb v "" then heroImage else v
  | None => heroImage
  end.

Record ReviewBody : Type := {
  body_user_name : string;
  body_comment : string;
  body_rating : option Z
}.

(** [rating || 5] *)
Definition rating_or_5 (r : option Z) : Z :=
  match r with
  | Some 0 => 5
  | Some n => n
  | None => 5
  end.

(** [app.post("/api/reviews", ...)] *)
Definition post_reviews (body : ReviewBody) (t : Table Review)
  : Table Review * Response :=
  (insert {| review_user_name := body_user_name body;
             rating := rating_or_5 (body_rating body);
             comment := body_comment body |} t,
   success).


(** [[...Array(review.rating)]]: the stars of a review, or the
    [RangeError] of [Array] for a length that is not an unsigned 32-bit
    integer. *)
Inductive stars_result : Type :=
| Stars (n : nat)
| RangeError.

Definition stars (review_rating : Z) : stars_result :=
  if Z.leb 0 review_rating && Z.ltb review_rating (2 ^ 32)
  then Stars (Z.to_nat review_rating)
  else RangeError.

(** ** Request bodies *)

(** [express.json()]: the body of a request sent as [application/json],
    which has to be an object or an array. *)
Definition express_json (text : string) : option json :=
  match JSON_parse text with
  | Some (JObj ms) => Some (JObj ms)
  | Some (JArr l) => Some (JArr l)
  | _ => None
  end.

(** [const { items, total, address, contact, user_id } = req.body]: the
    typed view of the body of an order ([items] any value, [total] a whole
    number, [address] and [contact] strings, [user_id] a whole number when
    it is there). *)
Definition order_body_of_json (j : json) : option OrderBody :=
  match j with
  | JObj ms =>
      match get_field "items" ms, get_field "total" ms,
            get_field "address" ms, get_field "contact" ms with
      | Some its, Some (JNum t), Some (JStr a), Some (JStr c) =>
          Some {| body_items := its;
                  body_total := t;
                  body_address := a;
                  body_contact := c;
                  body_user_id :=
                    match get_field "user_id" ms with
                    | Some (JNum u) => Some u
                    | _ => None
                    end |}
      | _, _, _, _ => None
      end
  | _ => None
  end.

(** What [POST /api/orders] makes of the text of a request. *)
Definition receive_order (text : string) : option OrderBody :=
  match express_json text with
  | Some j => order_body_of_json j
  | None => None
  end.

End Store.

(* ===================================================================== *)
(** * More sample data *)
(* ===================================================================== *)

Module Demo.
Import Json Data.
Local Open Scope Z_scope.

Definition red_wine : Product.t :=
  {| Product.id := 1;
     Product.name := "NIORA RED WINE SOAP";
     Product.price := 79;
     Product.description := "Luxury care. Youthful glow.";
     Product.benefits := "Rich in antioxidant-inspired care,Gentle for daily cleansing";
     Product.image := "https://images.unsplash.com/photo-1606813902914-cb5e3a6a7d26" |}.

Definition signature : Product.t :=
  {| Product.id := 4;
     Product.name := "NIORA SIGNATURE SOAP";
     Product.price := 200;
     Product.description := "Intensive care. Visible nourishment.";
     Product.benefits := "Deeply nourishes & revitalizes skin";
     Product.image := "https://images.unsplash.com/photo-1604908177522-4028c0f9b0db" |}.

(** A stand-in for bcrypt: the hash is the salt followed by the password,
    and a password matches a hash that ends with it. *)
Definition hash (salt password : string) : string := salt ++ password.

Definition compare (password hashed : string) : bool :=
  String.eqb
    (substring (String.length hashed - String.length password)
               (String.length password) hashed)
    password.

(** A stand-in for [jwt.sign], the counterpart of [Sample.verify_sample]. *)
Definition sign (payload : Jwt.payload) : string :=
  if String.eqb (Jwt.role payload) "admin" then "admin-token"
  else "customer-token".

Definition asha : Store.SignupBody :=
  {| Store.signup_name := "Asha";
     Store.signup_email := "asha@example.com";
     Store.signup_password := "s3cret" |}.

End Demo.

(* ===================================================================== *)
(** * The session of the visitor (client side) *)
(* ===================================================================== *)

Module Session.
Import Json Data Server.

(** The pieces of state that the login, the logout and the loading of
    the page read and write, with the two entries of [localStorage]. *)
Record State : Type := {
  token : option string;
  user : option UserInfo.t;
  isAdmin : bool;
  adminView : string;
  showAdminPanel : bool;
  isAdminModalOpen : bool;
  isAuthModalOpen : bool;
  authMode : string;
  niora_token : option string;
  niora_user : option string
}.

(** [res.ok] *)
Definition ok (res : Response) : bool :=
  Nat.leb 200 (status_code res) && Nat.leb (status_code res) 299.

(** The typed view of a [user] object: a whole-number [id], a string
    [name] and a string [role]. *)
Definition user_of_json (j : json) : option UserInfo.t :=
  match j with
  | JObj ms =>
      match get_field "id" ms, get_field "name" ms, get_field "role" ms with
      | Some (JNum i), Some (JStr n), Some (JStr r) =>
          Some {| UserInfo.id := i; UserInfo.name := n; UserInfo.role := r |}
      | _, _, _ => None
      end
  | _ => None
  end.

(** The object that [data.user] is, as the server writes it. *)
Definition user_to_json (u : UserInfo.t) : json :=
  JObj [("id"%string, JNum (UserInfo.id u));
        ("name"%string, JStr (UserInfo.name u));
        ("role"%string, JStr (UserInfo.role u))].

(** [data.token] and [data.user] of [await res.json()]. *)
Definition login_data (res : Response) : option (string * UserInfo.t) :=
  match res with
  | SendJson _ (JObj ms) =>
      match get_field "token" ms, get_field "user" ms with
      | Some (JStr t), Some j =>
          match user_of_json j with
          | Some u => Some (t, u)
          | None => None
          end
      | _, _ => None
      end
  | _ => None
  end.

(** The address that [handleAdminLogin] sends. *)
Definition admin_email (id : string) : string :=
  if String.eqb id "NIORA" then "admin@niora.com" else id.

(** [handleAdminLogin], once the answer is there. *)
Definition handleAdminLogin (res : Response) (st : State) : State :=
  if ok res then
    match login_data res with
    | Some (t, u) =>
        {| token := Some t;
           user := Some u;
           isAdmin := true;
           adminView := "dashboard";
           showAdminPanel := showAdminPanel st;
           isAdminModalOpen := false;
           isAuthModalOpen := isAuthModalOpen st;
           authMode := authMode st;
           niora_token := Some t;
           niora_user := Some (JSON_stringify (user_to_json u)) |}
    | None => st
    end
  else st.

(** [handleAuth] in mode "login", once the answer is there. *)
Definition handleAuth_login (res : Response) (st : State) : State :=
  if ok res then
    match login_data res with
    | Some (t, u) =>
        {| token := Some t;
           user := Some u;
           isAdmin :=
             if String.eqb (UserInfo.role u) "admin" then true else isAdmin st;
           adminView := adminView st;
           showAdminPanel := showAdminPanel st;
           isAdminModalOpen := isAdminModalOpen st;
           isAuthModalOpen := false;
           authMode := authMode st;
           niora_token := Some t;
           niora_user := Some (JSON_stringify (user_to_json u)) |}
    | None => st
    end
  else st.

Definition handleLogout (st : State) : State :=
  {| token := None;
     user := None;
     isAdmin := false;
     adminView := "dashboard";
     showAdminPanel := false;
     isAdminModalOpen := isAdminModalOpen st;
     isAuthModalOpen := isAuthModalOpen st;
     authMode := authMode st;
     niora_token := None;
     niora_user := None |}.

(** The state of a page that has just been loaded, before its effect. *)
Definition initial (stored_token stored_user : option string) : State :=
  {| token := stored_token;
     user := None;
     isAdmin := false;
     adminView := "dashboard";
     showAdminPanel := false;
     isAdminModalOpen := false;
     isAuthModalOpen := false;
     authMode := "login";
     niora_token := stored_token;
     niora_user := stored_user |}.

(** The part of the effect run at loading that restores the session:
    [if (storedUser && token) { const parsedUser = JSON.parse(storedUser);
    setUser(parsedUser); if (parsedUser.role === "admin") setIsAdmin(true) }].
    A stored text that is not JSON throws; one that is not a [user] object
    is outside the typed embedding and is treated as a [TypeError]. *)
Definition restore (st : State) : result State :=
  match Shop.present (niora_user st), Shop.present (token st) with
  | Some storedUser, Some _ =>
      match JSON_parse storedUser with
      | None => Throw SyntaxError
      | Some j =>
          match user_of_json j with
          | None => Throw TypeError
          | Some parsedUser =>
              Ok {| token := token st;
                    user := Some parsedUser;
                    isAdmin :=
                      if String.eqb (UserInfo.role parsedUser) "admin"
                      then true else isAdmin st;
                    adminView := adminView st;
                    showAdminPanel := showAdminPanel st;
                    isAdminModalOpen := isAdminModalOpen st;
                    isAuthModalOpen := isAuthModalOpen st;
                    authMode := authMode st;
                    niora_token := niora_token st;
                    niora_user := niora_user st |}
          end
      end
  | _, _ => Ok st
  end.

(** Loading the page with what [localStorage] holds. *)
Definition reload (st : State) : result State :=
  restore (initial (niora_token st) (niora_user st)).

End Session.
(* ===================================================================== *)
(** * Facts about the JSON codec *)
(* ===================================================================== *)

Section json_facts.
Import Json.
Local Open Scope char_scope.

(** ** Round trip: [JSON.parse (JSON.stringify v) = v] *)

(** One character, escaped, is read back as that character. *)
Lemma parse_chars_escape_char (c : ascii) (tail : list ascii) :
  parse_chars (escape_char c ++ tail) =
  match parse_chars tail with
  | Some (cs, r) => Some (c :: cs, r)
  | None => None
  end.
Proof. destruct c as [[] [] [] [] [] [] [] []]; reflexivity. Qed.

Lemma parse_chars_escape (s rest : list ascii) :
  parse_chars (escape s ++ dquote :: rest) = Some (s, rest).
Proof.
  induction s as [|c s IH]; [reflexivity|].
  cbn [escape]. rewrite <- app_assoc, parse_chars_escape_char, IH.
  reflexivity.
Qed.

Lemma lex_uint_print (u : uint) (rest : list ascii) :
  no_digit_head rest -> lex_uint (print_uint u ++ rest) = (u, rest).
Proof.
  intros Hrest.
  induction u; cbn; try (rewrite IHu; reflexivity).
  destruct rest as [|c r]; [reflexivity|].
  cbn in Hrest |- *. rewrite Hrest. reflexivity.
Qed.

Lemma to_int_normal (z : Z) : norm (Z.to_int z) = Z.to_int z.
Proof. rewrite <- DecimalZ.to_of, DecimalZ.of_to. reflexivity. Qed.

Lemma nzhead_no_leading_zero (u : uint) :
  match nzhead u with D0 _ => False | _ => True end.
Proof. induction u; cbn; auto. Qed.

Lemma well_formed_nzhead (u : uint) :
  nzhead u <> Nil -> well_formed_uint (nzhead u) = true.
Proof.
  intros Hnil. pose proof (nzhead_no_leading_zero u) as H.
  destruct (nzhead u); try reflexivity; [congruence | contradiction].
Qed.

Lemma well_formed_unorm (u : uint) : well_formed_uint (unorm u) = true.
Proof.
  unfold unorm. pose proof (nzhead_no_leading_zero u) as H.
  destruct (nzhead u); try reflexivity; contradiction.
Qed.

Lemma to_int_well_formed (z : Z) :
  well_formed_uint (match Z.to_int z with Pos u | Neg u => u end) = true.
Proof.
  pose proof (to_int_normal z) as H.
  destruct (Z.to_int z) as [u|u]; cbn in H.
  - injection H as H. rewrite <- H. apply well_formed_unorm.
  - assert (Hu : nzhead u = u /\ nzhead u <> Nil).
    { destruct (nzhead u); try discriminate; split; congruence. }
    destruct Hu as [Hu Hnil]. rewrite <- Hu. apply well_formed_nzhead, Hnil.
Qed.

Lemma print_uint_head (u : uint) :
  u <> Nil ->
  exists c l, print_uint u = c :: l /\ Ascii.eqb c "-" = false /\
              is_ws c = false /\ digit_of c <> None.
Proof.
  intros Hu. destruct u; [congruence|..]; cbn [print_uint];
    eexists; eexists; (split; [reflexivity|]); repeat split; discriminate.
Qed.

Lemma well_formed_not_nil (u : uint) : well_formed_uint u = true -> u <> Nil.
Proof. destruct u; [discriminate | congruence ..]. Qed.

Lemma parse_number_print_int (z : Z) (rest : list ascii) :
  no_digit_head rest ->
  parse_number (print_int z ++ rest) = Some (JNum z, rest).
Proof.
  intros Hrest. unfold print_int.
  pose proof (to_int_well_formed z) as Hwf.
  pose proof (DecimalZ.of_to z) as Hz.
  destruct (Z.to_int z) as [u|u]; cbn [Z.of_int] in Hz.
  - destruct (print_uint_head u (well_formed_not_nil u Hwf))
      as (c & l & Hp & Hminus & _).
    unfold parse_number. rewrite Hp. cbn [app]. rewrite Hminus.
    change (c :: l ++ rest) with ((c :: l) ++ rest).
    rewrite <- Hp, (lex_uint_print u rest Hrest), Hwf, Hz. reflexivity.
  - unfold parse_number. cbn [app Ascii.eqb Bool.eqb].
    rewrite (lex_uint_print u rest Hrest), Hwf, Hz. reflexivity.
Qed.

Lemma stringify_chars_arr (l : list json) :
  stringify_chars (JArr l) = "[" :: elems_text l.
Proof. reflexivity. Qed.

Lemma stringify_chars_obj (ms : list (string * json)) :
  stringify_chars (JObj ms) = "{" :: members_text ms.
Proof. reflexivity. Qed.

Lemma print_int_head (z : Z) :
  exists c l, print_int z = c :: l /\ opens_value c /\
    Ascii.eqb c "[" = false /\ Ascii.eqb c "{" = false /\
    Ascii.eqb c dquote = false /\ Ascii.eqb c "n" = false /\
    Ascii.eqb c "t" = false /\ Ascii.eqb c "f" = false.
Proof.
  unfold print_int. pose proof (to_int_well_formed z) as Hwf.
  destruct (Z.to_int z) as [u|u].
  - destruct u; [discriminate Hwf|..]; cbn [print_uint];
      eexists; eexists; (split; [reflexivity|]); repeat split; reflexivity.
  - eexists; eexists; (split; [reflexivity|]); repeat split; reflexivity.
Qed.

Lemma stringify_chars_head (v : json) :
  exists c l, stringify_chars v = c :: l /\ opens_value c.
Proof.
  destruct v as [|[]|z|s|l|ms];
    try (eexists; eexists; split; [reflexivity | repeat split; reflexivity]).
  destruct (print_int_head z) as (c & l & Hp & Hc & _).
  exists c, l. split; [exact Hp | exact Hc].
Qed.

Lemma skip_ws_head (c : ascii) (l : list ascii) :
  is_ws c = false -> skip_ws (c :: l) = c :: l.
Proof. intros H. cbn. rewrite H. reflexivity. Qed.

Lemma length_stringify_pos (v : json) : 1 <= length (stringify_chars v).
Proof.
  destruct (stringify_chars_head v) as (c & l & -> & _). cbn. lia.
Qed.

Lemma length_elems_text (x : json) (r : list json) :
  length (elems_text (x :: r)) =
  length (stringify_chars x) +
  match r with [] => 1 | _ :: _ => S (length (elems_text r)) end.
Proof. cbn [elems_text]. rewrite length_app. destruct r; reflexivity. Qed.

Lemma parse_elems_text (l : list json) :
  Forall reads_back l -> l <> [] ->
  forall fuel rest,
    length (elems_text l) <= fuel ->
    parse_elems fuel (elems_text l ++ rest) = Some (l, rest).
Proof.
  induction 1 as [|x r Hx Hr IH]; [congruence|]. intros _ fuel rest Hfuel.
  rewrite length_elems_text in Hfuel.
  pose proof (length_stringify_pos x) as Hpos.
  destruct fuel as [|f]; [lia|].
  cbn [parse_elems elems_text]. rewrite <- app_assoc.
  destruct r as [|y r].
  - cbn [app]. rewrite (Hx f ("]" :: rest)); [| exact eq_refl | lia].
    reflexivity.
  - cbn [app].
    rewrite (Hx f ("," :: elems_text (y :: r) ++ rest));
      [| exact eq_refl | lia].
    cbn [skip_ws is_ws Ascii.eqb Bool.eqb orb].
    rewrite IH; [reflexivity | congruence | lia].
Qed.

Lemma length_members_text (k : string) (x : json) (r : list (string * json)) :
  length (members_text ((k, x) :: r)) =
  length (quote k) + S (length (stringify_chars x) +
  match r with [] => 1 | _ :: _ => S (length (members_text r)) end).
Proof.
  cbn [members_text]. rewrite length_app. cbn [length].
  rewrite length_app. destruct r; reflexivity.
Qed.

Lemma parse_members_text (ms : list (string * json)) :
  Forall (fun kv => reads_back (snd kv)) ms -> ms <> [] ->
  forall fuel rest,
    length (members_text ms) <= fuel ->
    parse_members fuel (members_text ms ++ rest) = Some (ms, rest).
Proof.
  induction 1 as [|[k x] r Hx Hr IH]; [congruence|].
  intros _ fuel rest Hfuel. cbn [snd] in Hx.
  rewrite length_members_text in Hfuel.
  destruct fuel as [|f]; [lia|].
  cbn [parse_members members_text]. unfold quote at 1.
  cbn [app skip_ws is_ws Ascii.eqb Bool.eqb orb dquote].
  change (ascii_of_nat 34) with dquote.
  repeat rewrite <- app_assoc. cbn [app].
  rewrite parse_chars_escape.
  cbn [skip_ws is_ws Ascii.eqb Bool.eqb orb].
  rewrite string_of_list_ascii_of_string.
  destruct r as [|kv r]; repeat rewrite <- app_assoc; cbn [app].
  - rewrite (Hx f ("}" :: rest)); [| exact eq_refl | lia]. reflexivity.
  - rewrite (Hx f ("," :: members_text (kv :: r) ++ rest));
      [| exact eq_refl | lia].
    cbn [skip_ws is_ws Ascii.eqb Bool.eqb orb].
    rewrite IH; [reflexivity | congruence | lia].
Qed.

Lemma elems_text_head (x : json) (r : list json) (rest : list ascii) :
  exists c t, elems_text (x :: r) ++ rest = c :: t /\ opens_value c.
Proof.
  destruct (stringify_chars_head x) as (c & l & Hx & Hc).
  cbn [elems_text]. rewrite Hx. eexists; eexists; split; [reflexivity | exact Hc].
Qed.

Lemma members_text_head (kv : string * json) (r : list (string * json))
    (rest : list ascii) :
  exists c t, members_text (kv :: r) ++ rest = c :: t /\ opens_value c.
Proof.
  destruct kv as [k x]. cbn [members_text]. unfold quote at 1.
  eexists; eexists; split; [reflexivity | repeat split; reflexivity].
Qed.

Lemma parse_value_stringify (v : json) : reads_back v.
Proof.
  induction v as [|b|z|s|l IH|ms IH] using json_nested_ind;
    intros fuel rest Hrest Hfuel;
    (destruct fuel as [|f];
     [match type of Hfuel with
      | length (stringify_chars ?v) <= _ =>
          pose proof (length_stringify_pos v); lia
      end|]).
  - reflexivity.
  - destruct b; reflexivity.
  - destruct (print_int_head z)
      as (c & l & Hp & (Hws & _) & H1 & H2 & H3 & H4 & H5 & H6).
    cbn [parse_value stringify_chars]. rewrite Hp. cbn [app].
    rewrite (skip_ws_head c _ Hws), H1, H2, H3, H4, H5, H6.
    change (c :: l ++ rest) with ((c :: l) ++ rest). rewrite <- Hp.
    apply parse_number_print_int, Hrest.
  - cbn [parse_value stringify_chars]. unfold quote.
    cbn [app skip_ws is_ws Ascii.eqb Bool.eqb orb dquote].
    change (ascii_of_nat 34) with dquote.
    rewrite <- app_assoc. cbn [app].
    rewrite parse_chars_escape, string_of_list_ascii_of_string.
    reflexivity.
  - rewrite stringify_chars_arr in *. cbn [length] in Hfuel.
    destruct l as [|x r]; [reflexivity|].
    cbn [parse_value app skip_ws is_ws Ascii.eqb Bool.eqb orb].
    destruct (elems_text_head x r rest) as (c & t & E & Hws & Hclose & _).
    rewrite E, (skip_ws_head c t Hws), Hclose, <- E.
    rewrite parse_elems_text; [reflexivity | exact IH | congruence | lia].
  - rewrite stringify_chars_obj in *. cbn [length] in Hfuel.
    destruct ms as [|kv r]; [reflexivity|].
    cbn [parse_value app skip_ws is_ws Ascii.eqb Bool.eqb orb].
    destruct (members_text_head kv r rest) as (c & t & E & Hws & _ & Hclose).
    rewrite E, (skip_ws_head c t Hws), Hclose, <- E.
    rewrite parse_members_text; [reflexivity | exact IH | congruence | lia].
Qed.

(** [JSON.parse] reads back what [JSON.stringify] wrote. *)
Lemma JSON_parse_stringify (v : json) :
  JSON_parse (JSON_stringify v) = Some v.
Proof.
  unfold JSON_parse, JSON_stringify.
  rewrite list_ascii_of_string_of_list_ascii.
  rewrite <- (app_nil_r (stringify_chars v)) at 2.
  rewrite parse_value_stringify; [reflexivity | exact I | lia].
Qed.

(** ** The fuel of [JSON.parse] is never the reason of a failure *)

Lemma skip_ws_length (s : list ascii) : length (skip_ws s) <= length s.
Proof.
  induction s as [|c s IH]; cbn; [lia|]. destruct (is_ws c); cbn; lia.
Qed.

Lemma strip_prefix_length (p s r : list ascii) :
  strip_prefix p s = Some r -> length r <= length s.
Proof.
  revert s. induction p as [|a p IH]; intros [|b s] H; cbn in H;
    try discriminate; try (injection H as <-; cbn; lia).
  destruct (Ascii.eqb a b); [|discriminate]. apply IH in H. cbn. lia.
Qed.

Lemma keyword_length (w : string) (v x : json) (s r : list ascii) :
  keyword w v s = Some (x, r) -> length r <= length s.
Proof.
  unfold keyword. destruct (strip_prefix _ s) as [r'|] eqn:E; [|discriminate].
  intros [= _ <-]. eapply strip_prefix_length, E.
Qed.

Lemma parse_chars_length (s cs r : list ascii) :
  parse_chars s = Some (cs, r) -> length r < length s.
Proof.
  remember (length s) as n eqn:Hn. revert s cs r Hn.
  induction n as [n IH] using lt_wf_ind. intros s cs r Hn H. subst n.
  destruct s as [|c s]; [discriminate|]. cbn [parse_chars] in H.
  destruct (Ascii.eqb c dquote); [injection H as _ <-; cbn; lia|].
  destruct (Ascii.eqb c backslash).
  - destruct s as [|e s1]; [discriminate|].
    destruct (Ascii.eqb e "u").
    + destruct s1 as [|h1 [|h2 [|h3 [|h4 s2]]]]; try discriminate.
      destruct (hex4 h1 h2 h3 h4); [|discriminate].
      destruct (parse_chars s2) as [[cs' r']|] eqn:E; [|discriminate].
      injection H as _ <-.
      apply (IH (length s2)) in E; cbn [length] in *; lia.
    + destruct (unescape e); [|discriminate].
      destruct (parse_chars s1) as [[cs' r']|] eqn:E; [|discriminate].
      injection H as _ <-.
      apply (IH (length s1)) in E; cbn [length] in *; lia.
  - destruct (is_control c); [discriminate|].
    destruct (parse_chars s) as [[cs' r']|] eqn:E; [|discriminate].
    injection H as _ <-.
    apply (IH (length s)) in E; cbn [length] in *; lia.
Qed.

Lemma lex_uint_length (s : list ascii) :
  length (snd (lex_uint s)) <= length s /\
  (fst (lex_uint s) <> Nil -> length (snd (lex_uint s)) < length s).
Proof.
  induction s as [|c s [IH1 IH2]]; cbn [lex_uint].
  - split; [cbn; lia | cbn; congruence].
  - destruct (digit_of c) as [d|]; [|split; [cbn; lia | cbn; congruence]].
    destruct (lex_uint s) as [u r]. cbn [fst snd length] in *.
    split; intros; lia.
Qed.

Lemma parse_number_length (s r : list ascii) (v : json) :
  parse_number s = Some (v, r) -> length r < length s.
Proof.
  unfold parse_number. destruct s as [|c s]; [discriminate|].
  destruct (Ascii.eqb c "-").
  - pose proof (lex_uint_length s) as [H1 _].
    destruct (lex_uint s) as [u r']. cbn [fst snd] in H1.
    destruct (well_formed_uint u); [|discriminate].
    intros [= _ <-]. cbn [length]. lia.
  - pose proof (lex_uint_length (c :: s)) as [_ H2].
    destruct (lex_uint (c :: s)) as [u r']. cbn [fst snd] in H2.
    destruct (well_formed_uint u) eqn:Hwf; [|discriminate].
    intros [= _ <-]. apply H2. destruct u; [discriminate | congruence ..].
Qed.

Lemma parse_settled (fuel : nat) :
  (forall s v rest,
      parse_value fuel s = Some (v, rest) -> settled parse_value s v rest) /\
  (forall s vs rest,
      parse_elems fuel s = Some (vs, rest) -> settled parse_elems s vs rest) /\
  (forall s ms rest,
      parse_members fuel s = Some (ms, rest) -> settled parse_members s ms rest).
Proof.
  induction fuel as [|f (IHv & IHe & IHm)];
    [repeat split; intros; discriminate|].
  split; [|split].
  - intros s v rest H. cbn [parse_value] in H.
    pose proof (skip_ws_length s) as Hs.
    destruct (skip_ws s) as [|c r] eqn:Es; [discriminate|]. cbn [length] in Hs.
    destruct (Ascii.eqb c "[") eqn:E1.
    { pose proof (skip_ws_length r) as Hr.
      destruct (skip_ws r) as [|c' r'] eqn:Er; [discriminate|].
      cbn [length] in Hr.
      destruct (Ascii.eqb c' "]") eqn:E2.
      - injection H as <- <-. split; [lia|]. intros [|g] Hg; [lia|].
        cbn [parse_value]. rewrite Es, E1, Er, E2. reflexivity.
      - destruct (parse_elems f r) as [[vs r1]|] eqn:Ep; [|discriminate].
        injection H as <- <-. apply IHe in Ep as [Hlen Hf].
        split; [lia|]. intros [|g] Hg; [lia|].
        cbn [parse_value]. rewrite Es, E1, Er, E2, Hf by lia. reflexivity. }
    destruct (Ascii.eqb c "{") eqn:E2.
    { pose proof (skip_ws_length r) as Hr.
      destruct (skip_ws r) as [|c' r'] eqn:Er; [discriminate|].
      cbn [length] in Hr.
      destruct (Ascii.eqb c' "}") eqn:E3.
      - injection H as <- <-. split; [lia|]. intros [|g] Hg; [lia|].
        cbn [parse_value]. rewrite Es, E1, E2, Er, E3. reflexivity.
      - destruct (parse_members f r) as [[ms r1]|] eqn:Ep; [|discriminate].
        injection H as <- <-. apply IHm in Ep as [Hlen Hf].
        split; [lia|]. intros [|g] Hg; [lia|].
        cbn [parse_value]. rewrite Es, E1, E2, Er, E3, Hf by lia.
        reflexivity. }
    assert (Hlen : length rest < length (c :: r)).
    { destruct (Ascii.eqb c dquote).
      - destruct (parse_chars r) as [[cs r1]|] eqn:Ep; [|discriminate].
        injection H as _ <-. apply parse_chars_length in Ep. cbn. lia.
      - destruct (Ascii.eqb c "n");
          [apply keyword_length in H; cbn; lia|].
        destruct (Ascii.eqb c "t");
          [apply keyword_length in H; cbn; lia|].
        destruct (Ascii.eqb c "f");
          [apply keyword_length in H; cbn; lia|].
        apply parse_number_length in H. exact H. }
    cbn [length] in Hlen. split; [lia|]. intros [|g] Hg; [lia|].
    cbn [parse_value]. rewrite Es, E1, E2. exact H.
  - intros s vs rest H. cbn [parse_elems] in H.
    destruct (parse_value f s) as [[v r]|] eqn:Ev; [|discriminate].
    apply IHv in Ev as [Hlen Hf].
    pose proof (skip_ws_length r) as Hr.
    destruct (skip_ws r) as [|c r1] eqn:Er; [discriminate|].
    cbn [length] in Hr.
    destruct (Ascii.eqb c ",") eqn:E1.
    { destruct (parse_elems f r1) as [[vs' r2]|] eqn:Ep; [|discriminate].
      injection H as <- <-. apply IHe in Ep as [Hlen' Hf'].
      split; [lia|]. intros [|g] Hg; [lia|].
      cbn [parse_elems]. rewrite Hf by lia. rewrite Er, E1, Hf' by lia.
      reflexivity. }
    destruct (Ascii.eqb c "]") eqn:E2; [|discriminate].
    injection H as <- <-. split; [lia|]. intros [|g] Hg; [lia|].
    cbn [parse_elems]. rewrite Hf by lia. rewrite Er, E1, E2. reflexivity.
  - intros s ms rest H. cbn [parse_members] in H.
    pose proof (skip_ws_length s) as Hs.
    destruct (skip_ws s) as [|q r] eqn:Es; [discriminate|]. cbn [length] in Hs.
    destruct (Ascii.eqb q dquote) eqn:Eq; [|discriminate].
    destruct (parse_chars r) as [[k r1]|] eqn:Ek; [|discriminate].
    pose proof (parse_chars_length _ _ _ Ek) as Hk.
    pose proof (skip_ws_length r1) as Hr1.
    destruct (skip_ws r1) as [|c r2] eqn:Er1; [discriminate|].
    cbn [length] in Hr1.
    destruct (Ascii.eqb c ":") eqn:Ec; [|discriminate].
    destruct (parse_value f r2) as [[v r3]|] eqn:Ev; [|discriminate].
    apply IHv in Ev as [Hlen Hf].
    pose proof (skip_ws_length r3) as Hr3.
    destruct (skip_ws r3) as [|d r4] eqn:Er3; [discriminate|].
    cbn [length] in Hr3.
    destruct (Ascii.eqb d ",") eqn:E1.
    { destruct (parse_members f r4) as [[ms' r5]|] eqn:Ep; [|discriminate].
      injection H as <- <-. apply IHm in Ep as [Hlen' Hf'].
      split; [lia|]. intros [|g] Hg; [lia|].
      cbn [parse_members]. rewrite Es, Eq, Ek, Er1, Ec, Hf by lia.
      rewrite Er3, E1, Hf' by lia. reflexivity. }
    destruct (Ascii.eqb d "}") eqn:E2; [|discriminate].
    injection H as <- <-. split; [lia|]. intros [|g] Hg; [lia|].
    cbn [parse_members]. rewrite Es, Eq, Ek, Er1, Ec, Hf by lia.
    rewrite Er3, E1, E2. reflexivity.
Qed.

(** If some amount of fuel reads the text as one value followed by white
    space only, [JSON_parse] reads it: a [None] is a text that no amount
    of fuel can read. *)
Lemma JSON_parse_complete (fuel : nat) (s : string) (v : json)
    (rest : list ascii) :
  parse_value fuel (list_ascii_of_string s) = Some (v, rest) ->
  skip_ws rest = [] ->
  JSON_parse s = Some v.
Proof.
  intros H Hrest. apply (proj1 (parse_settled fuel)) in H as [Hlen Hf].
  unfold JSON_parse. rewrite Hf by lia. rewrite Hrest. reflexivity.
Qed.

End json_facts.

(* ===================================================================== *)
(** * Facts about the insertion-ordered maps *)
(* ===================================================================== *)

Section assoc_facts.
Import Data.
Local Open Scope Z_scope.





End assoc_facts.

(* ===================================================================== *)
(** * Facts about the dashboard *)
(* ===================================================================== *)

Section tally_facts.
Import Json Data Client Spec.
Local Open Scope Z_scope.






(** ** The [reduce] that elects the best seller *)



End tally_facts.

Section dashboard_facts.
Import Json Data Client Spec.
Local Open Scope Z_scope.

Variable month_short : string -> string.

Lemma fold_step_totalRevenue (l : list Order) (st : Locals) :
  var_totalRevenue (fold_left (step month_short) l st) =
  var_totalRevenue st + Zsum (map total l).
Proof.
  revert st. induction l as [|o l IH]; intros st; cbn [fold_left map].
  - unfold Zsum. cbn [fold_right]. lia.
  - rewrite IH. unfold Zsum. cbn [step var_totalRevenue fold_right]. lia.
Qed.

Lemma fold_step_delivered (l : list Order) (st : Locals) :
  var_delivered (fold_left (step month_short) l st) =
  (var_delivered st + length (List.filter is_delivered l))%nat.
Proof.
  revert st. induction l as [|o l IH]; intros st; cbn [fold_left List.filter].
  - cbn. lia.
  - rewrite IH. cbn [step var_delivered].
    destruct (is_delivered o); cbn [length]; lia.
Qed.

Lemma fold_step_pending (l : list Order) (st : Locals) :
  var_pending (fold_left (step month_short) l st) =
  (var_pending st +
   length (List.filter (fun o => negb (is_delivered o)) l))%nat.
Proof.
  revert st. induction l as [|o l IH]; intros st; cbn [fold_left List.filter].
  - cbn. lia.
  - rewrite IH. cbn [step var_pending].
    destruct (is_delivered o); cbn [negb length]; lia.
Qed.


(** A bucket of [monthlySales] after one order. *)
Lemma step_monthlySales (st : Locals) (o : Order) (m : string) :
  monthlySales (step month_short st o) !! m =
  if String.eqb (month_short (created_at o)) m then
    Some (default 0 (monthlySales st !! m) + total o)
  else monthlySales st !! m.
Proof.
  cbn [step monthlySales].
  destruct (String.eqb_spec (month_short (created_at o)) m) as [->|Hne].
  - destruct (monthlySales st !! m) as [v|] eqn:E;
      rewrite lookup_insert_eq; cbn; f_equal; lia.
  - destruct (monthlySales st !! month_short (created_at o));
      rewrite lookup_insert_ne by exact Hne; reflexivity.
Qed.

(** A bucket of [monthlySales] after the loop: untouched when no order
    falls in the month, else its former value (0 if it was absent) plus
    the revenue of the month. *)
Lemma fold_step_monthlySales (l : list Order) (st : Locals) (m : string) :
  monthlySales (fold_left (step month_short) l st) !! m =
  match month_orders month_short m l with
  | [] => monthlySales st !! m
  | _ :: _ =>
      Some (default 0 (monthlySales st !! m) + month_revenue month_short m l)
  end.
Proof.
  revert st. induction l as [|o l IH]; intros st; cbn [fold_left].
  - reflexivity.
  - rewrite IH, step_monthlySales.
    unfold month_revenue, month_orders. cbn [List.filter].
    destruct (String.eqb (month_short (created_at o)) m).
    + cbn [map Zsum fold_right].
      destruct (List.filter _ l); cbn; f_equal; lia.
    + reflexivity.
Qed.

Lemma initial_monthlySales (m : string) :
  monthlySales initial !! m = if seeded m then Some 0 else None.
Proof.
  unfold seeded. cbn [initial monthlySales].
  destruct (String.eqb_spec m "Jan") as [->|H1]; [reflexivity|].
  rewrite lookup_insert_ne by congruence.
  destruct (String.eqb_spec m "Feb") as [->|H2]; [reflexivity|].
  rewrite lookup_insert_ne by congruence.
  destruct (String.eqb_spec m "Mar") as [->|H3]; [reflexivity|].
  rewrite lookup_insert_ne by congruence. reflexivity.
Qed.

Lemma month_revenue_nil (m : string) (l : list Order) :
  month_orders month_short m l = [] -> month_revenue month_short m l = 0.
Proof. unfold month_revenue. intros ->. reflexivity. Qed.

(** The buckets of [monthlySales] when the loop ends. *)
Lemma run_monthlySales (filtered : list Order) (m : string) :
  monthlySales (run month_short filtered) !! m =
  match month_orders month_short m filtered with
  | [] => if seeded m then Some 0 else None
  | _ :: _ => Some (month_revenue month_short m filtered)
  end.
Proof.
  unfold run. rewrite fold_step_monthlySales, initial_monthlySales.
  destruct (month_orders month_short m filtered); [reflexivity|].
  destruct (seeded m); cbn; f_equal; lia.
Qed.

Lemma chart_value (filtered : list Order) (m : string) :
  match monthlySales (run month_short filtered) !! m with
  | Some v => v
  | None => 0
  end = month_revenue month_short m filtered.
Proof.
  rewrite run_monthlySales.
  destruct (month_orders month_short m filtered) eqn:E; [|reflexivity].
  rewrite (month_revenue_nil m filtered E). destruct (seeded m); reflexivity.
Qed.

Lemma salesChartData_spec (filtered : list Order) :
  salesChartData (dashboardStats month_short filtered) =
  [("Jan", month_revenue month_short "Jan" filtered);
   ("Feb", month_revenue month_short "Feb" filtered);
   ("Mar", month_revenue month_short "Mar" filtered)]%string.
Proof.
  cbn [dashboardStats salesChartData map]. rewrite !chart_value. reflexivity.
Qed.

End dashboard_facts.

(* ===================================================================== *)
(** * Properties of the dashboard *)
(* ===================================================================== *)

Section permutations.
Import Data Spec.
Local Open Scope Z_scope.






End permutations.

Section dashboard_claims.
Import Json Data Client Spec Sample.
Local Open Scope Z_scope.


Lemma dashboard_totalRevenue (month_short : string -> string)
    (filtered : list Order) :
  totalRevenue (dashboardStats month_short filtered) = Zsum (map total filtered).
Proof.
  cbn [dashboardStats totalRevenue]. unfold run.
  rewrite fold_step_totalRevenue. cbn. lia.
Qed.

Lemma dashboard_delivered (month_short : string -> string)
    (filtered : list Order) :
  delivered (dashboardStats month_short filtered) =
  length (List.filter is_delivered filtered).
Proof.
  cbn [dashboardStats delivered]. unfold run.
  rewrite fold_step_delivered. reflexivity.
Qed.

Lemma dashboard_pending (month_short : string -> string)
    (filtered : list Order) :
  pending (dashboardStats month_short filtered) =
  length (List.filter (fun o => negb (is_delivered o)) filtered).
Proof.
  cbn [dashboardStats pending]. unfold run.
  rewrite fold_step_pending. reflexivity.
Qed.

Lemma filter_split_length {A : Type} (f : A -> bool) (l : list A) :
  (length (List.filter f l) + length (List.filter (fun x => negb (f x)) l)
   = length l)%nat.
Proof.
  induction l as [|x l IH]; [reflexivity|]. cbn [List.filter].
  destruct (f x); cbn [negb length]; lia.
Qed.

(** C1.  Whatever the orders and the month filter, the dashboard reports
    the number of filtered orders, the sum of their totals, the number of
    those whose lower-cased status is "delivered", and counts every other
    one (whatever its status) as pending.  For the three January orders of
    79, 89 (delivered) and 200 (pending), filter "Jan" gives 3 orders,
    368 of revenue, 1 delivered, 2 pending. *)
Theorem C1_dashboard_counts :
  forall (month_short : string -> string) (adminOrders : list Order)
         (selectedMonth : string),
    let filtered := filteredOrders month_short selectedMonth adminOrders in
    let stats := dashboardStats month_short filtered in
    totalOrders stats = length filtered /\
    totalRevenue stats = Zsum (map total filtered) /\
    delivered stats =
      length (List.filter
                (fun o => String.eqb (toLowerCase (status o)) "delivered")
                filtered) /\
    pending stats =
      length (List.filter
                (fun o => negb (String.eqb (toLowerCase (status o)) "delivered"))
                filtered) /\
    (delivered stats + pending stats = totalOrders stats)%nat /\
    let jan :=
      dashboardStats month_short_en
        (filteredOrders month_short_en "Jan" (january ++ [february])) in
    map total january = [79; 89; 200] /\
    totalOrders jan = 3%nat /\ totalRevenue jan = 368 /\
    delivered jan = 1%nat /\ pending jan = 2%nat.
Proof.
  intros month_short adminOrders selectedMonth filtered stats. subst stats.
  rewrite dashboard_totalRevenue, dashboard_delivered, dashboard_pending.
  split; [reflexivity|]. split; [reflexivity|]. split; [reflexivity|].
  split; [reflexivity|]. split; [apply (filter_split_length is_delivered)|].
  vm_compute. repeat split; reflexivity.
Qed.

(** C2.  The chart [salesChartData] always lists Jan, Feb and Mar, and
    nothing else, each with the revenue of its month (0 without orders).
    The accumulator [monthlySales] does open a bucket for any other month
    in which an order falls, and only then, but that bucket never reaches
    the output: an order of April leaves "Apr" in [monthlySales] and a
    chart of three zeros. *)
Theorem C2_chart_keeps_three_months :
  forall (month_short : string -> string) (filtered : list Order),
    salesChartData (dashboardStats month_short filtered) =
      [("Jan", month_revenue month_short "Jan" filtered);
       ("Feb", month_revenue month_short "Feb" filtered);
       ("Mar", month_revenue month_short "Mar" filtered)]%string /\
    (forall m : string,
        monthlySales (run month_short filtered) !! m =
        match month_orders month_short m filtered with
        | [] => if seeded m then Some 0 else None
        | _ :: _ => Some (month_revenue month_short m filtered)
        end) /\
    month_orders month_short_en "Apr" [april] = [april] /\
    monthlySales (run month_short_en [april]) !! "Apr"%string = Some 150 /\
    salesChartData (dashboardStats month_short_en [april]) =
      [("Jan", 0); ("Feb", 0); ("Mar", 0)]%string.
Proof.
  intros month_short filtered. split; [apply salesChartData_spec|].
  split; [intros m; apply run_monthlySales|].
  split; [reflexivity|]. split; vm_compute; reflexivity.
Qed.


(** ** An order whose snapshot cannot be read *)








(** ** The best seller *)



(** ** The order of the rows *)



End dashboard_claims.

(* ===================================================================== *)
(** * Properties of the server *)
(* ===================================================================== *)

Section ledger_claims.
Import Json Data Spec Sample Server.
Local Open Scope Z_scope.



Lemma read_items_stringify (v : json) (its : list Item) :
  items_of_json v = Some its -> read_items (JSON_stringify v) = Ok its.
Proof.
  intros H. unfold read_items. rewrite JSON_parse_stringify, H. reflexivity.
Qed.



End ledger_claims.

Section access_claims.
Import Data Sample Server.

Variable jwt_verify : string -> Jwt.verified.

(** The two guards in a row. *)
Lemma guards_spec (req : Request) :
  run_chain [authenticateToken jwt_verify; isAdmin] req =
  match token_of req with
  | None => Respond (SendStatus 401)
  | Some token =>
      match jwt_verify token with
      | Jwt.Invalid _ => Respond (SendStatus 403)
      | Jwt.Valid u =>
          if String.eqb (Jwt.role u) "admin" then
            Next {| authorization := authorization req; user := Some u |}
          else Respond (SendStatus 403)
      end
  end.
Proof.
  cbn [run_chain]. unfold authenticateToken.
  destruct (token_of req) as [token|]; [|reflexivity].
  destruct (jwt_verify token) as [e|u]; [reflexivity|].
  unfold isAdmin. cbn [user].
  destruct (String.eqb (Jwt.role u) "admin"); reflexivity.
Qed.

Lemma dispatch_privileged (r : Route) (req : Request) :
  privileged r = true ->
  dispatch jwt_verify r req =
  run_chain [authenticateToken jwt_verify; isAdmin] req.
Proof.
  intros Hr. unfold dispatch.
  destruct r; try discriminate Hr; cbn [middlewares];
    try reflexivity;
    cbn [run_chain];
    destruct (authenticateToken jwt_verify req) as [x|req1]; try reflexivity;
    destruct (isAdmin req1) as [y|req2]; reflexivity.
Qed.

End access_claims.

Section access_theorem.
Import Data Sample Server.

(** C7.  On every privileged route (orders list, admin statistics,
    changes to products, gallery and settings): a request without bearer
    token is answered 401; a request whose token does not verify (bad
    signature, expired) is answered 403; a request whose token verifies
    but whose role is not "admin" is answered 403; a request whose token
    verifies with role "admin" reaches the handler; and no other request
    reaches it. *)
Theorem C7_privileged_routes_are_guarded :
  forall (jwt_verify : string -> Jwt.verified) (r : Route) (req : Request),
    privileged r = true ->
    (authorization req = None ->
       dispatch jwt_verify r req = Respond (SendStatus 401)) /\
    (token_of req = None ->
       dispatch jwt_verify r req = Respond (SendStatus 401)) /\
    (forall token e,
       token_of req = Some token -> jwt_verify token = Jwt.Invalid e ->
       dispatch jwt_verify r req = Respond (SendStatus 403)) /\
    (forall token u,
       token_of req = Some token -> jwt_verify token = Jwt.Valid u ->
       Jwt.role u <> "admin"%string ->
       dispatch jwt_verify r req = Respond (SendStatus 403)) /\
    (forall token u,
       token_of req = Some token -> jwt_verify token = Jwt.Valid u ->
       Jwt.role u = "admin"%string ->
       dispatch jwt_verify r req =
       Next {| authorization := authorization req; user := Some u |}) /\
    (forall req',
       dispatch jwt_verify r req = Next req' ->
       exists token u,
         token_of req = Some token /\ jwt_verify token = Jwt.Valid u /\
         Jwt.role u = "admin"%string).
Proof.
  intros jwt_verify r req Hr.
  rewrite (dispatch_privileged jwt_verify r req Hr), guards_spec.
  repeat split.
  - intros H. unfold token_of. rewrite H. reflexivity.
  - intros ->. reflexivity.
  - intros token e -> ->. reflexivity.
  - intros token u -> -> Hrole.
    destruct (String.eqb_spec (Jwt.role u) "admin"); [contradiction|reflexivity].
  - intros token u -> -> ->. reflexivity.
  - intros req' H.
    destruct (token_of req) as [token|]; [|discriminate].
    destruct (jwt_verify token) as [e|u] eqn:Ev; [discriminate|].
    destruct (String.eqb_spec (Jwt.role u) "admin") as [Hrole|]; [|discriminate].
    exists token, u. auto.
Qed.

Lemma C7_privileged_routes_are_guarded_witness :
  privileged GET_admin_orders = true /\
  dispatch verify_sample GET_admin_orders (request None)
    = Respond (SendStatus 401) /\
  dispatch verify_sample GET_admin_orders (request (Some "Bearer old-token"%string))
    = Respond (SendStatus 403) /\
  dispatch verify_sample GET_admin_orders
    (request (Some "Bearer customer-token"%string))
    = Respond (SendStatus 403) /\
  exists u,
    Jwt.role u = "admin"%string /\
    dispatch verify_sample GET_admin_orders
      (request (Some "Bearer admin-token"%string))
    = Next {| authorization := Some "Bearer admin-token"%string;
              user := Some u |}.
Proof.
  split; [reflexivity|].
  split.
  { apply (C7_privileged_routes_are_guarded verify_sample GET_admin_orders
             (request None) eq_refl).
    reflexivity. }
  split.
  { destruct (C7_privileged_routes_are_guarded verify_sample GET_admin_orders
                (request (Some "Bearer old-token"%string)) eq_refl)
      as (_ & _ & H & _).
    apply (H "old-token"%string Jwt.TokenExpiredError); reflexivity. }
  split.
  { destruct (C7_privileged_routes_are_guarded verify_sample GET_admin_orders
                (request (Some "Bearer customer-token"%string)) eq_refl)
      as (_ & _ & _ & H & _).
    eapply (H "customer-token"%string); [reflexivity | reflexivity |].
    cbn. discriminate. }
  eexists. split; [|
    destruct (C7_privileged_routes_are_guarded verify_sample GET_admin_orders
                (request (Some "Bearer admin-token"%string)) eq_refl)
      as (_ & _ & _ & _ & H & _);
    apply (H "admin-token"%string); reflexivity ].
  reflexivity.
Defined.

End access_theorem.

Section stats_claims.
Import Json Data Client Spec Sample Server.
Local Open Scope Z_scope.












End stats_claims.

(* ===================================================================== *)
(** * Properties of the cart and of the checkout *)
(* ===================================================================== *)

Section cart_facts.
Import Json Data Spec Shop.
Local Open Scope Z_scope.

Lemma fold_left_add_shift {A : Type} (f : A -> Z) (l : list A) (a : Z) :
  fold_left (fun s x => s + f x) l a = a + Zsum (map f l).
Proof.
  revert a. induction l as [|x l IH]; intros a; cbn [fold_left map].
  - unfold Zsum. cbn. lia.
  - rewrite IH. unfold Zsum. cbn [fold_right]. lia.
Qed.

Lemma cartTotal_sum (cart : list CartItem.t) :
  cartTotal cart =
  Zsum (map (fun i => CartItem.price i * CartItem.quantity i) cart).
Proof. unfold cartTotal. rewrite fold_left_add_shift. lia. Qed.


Lemma find_id_None (pid : Z) (cart : list CartItem.t) :
  find (fun item => Z.eqb (CartItem.id item) pid) cart = None <->
  ~ In pid (map CartItem.id cart).
Proof.
  induction cart as [|x cart IH]; cbn [find map In]; [tauto|].
  destruct (Z.eqb_spec (CartItem.id x) pid) as [E|E].
  - split; [discriminate | intros H; exfalso; apply H; left; exact E].
  - rewrite IH. intuition.
Qed.

Lemma map_id_bump (pid : Z) (cart : list CartItem.t) :
  map CartItem.id
      (map (fun item => if Z.eqb (CartItem.id item) pid
                        then one_more item else item) cart)
  = map CartItem.id cart.
Proof.
  induction cart as [|x cart IH]; [reflexivity|]. cbn [map]. rewrite IH.
  destruct (Z.eqb (CartItem.id x) pid); reflexivity.
Qed.

Lemma addToCart_ok (product : Product.t) (cart : list CartItem.t) :
  cart_ok cart -> cart_ok (addToCart product cart).
Proof.
  intros [Hnd Hq]. unfold addToCart.
  destruct (find _ cart) as [existing|] eqn:E.
  - split; [rewrite map_id_bump; exact Hnd|].
    apply Forall_map. eapply List.Forall_impl; [|exact Hq].
    intros x Hx. unfold compose. cbn beta in Hx.
    destruct (Z.eqb (CartItem.id x) (Product.id product));
      cbn [one_more CartItem.quantity]; lia.
  - apply find_id_None in E. split.
    + rewrite map_app. cbn [map new_item CartItem.id].
      apply NoDup_app. repeat split; [exact Hnd | | apply NoDup_singleton].
      intros i Hi Hin. apply list_elem_of_In in Hi.
      apply list_elem_of_In in Hin. cbn in Hin. destruct Hin as [<-|[]].
      contradiction.
    + apply Forall_app. split; [exact Hq|]. repeat constructor. cbn. lia.
Qed.

Lemma removeFromCart_ok (id : Z) (cart : list CartItem.t) :
  cart_ok cart -> cart_ok (removeFromCart id cart).
Proof.
  intros [Hnd Hq]. unfold removeFromCart. split.
  - induction cart as [|x cart IH]; cbn [List.filter map]; [constructor|].
    apply NoDup_cons in Hnd as [Hx Hnd]. apply Forall_cons in Hq as [_ Hq].
    destruct (negb _); [|exact (IH Hnd Hq)].
    cbn [map]. apply NoDup_cons. split; [|exact (IH Hnd Hq)].
    intros Hin. apply Hx. apply list_elem_of_In in Hin.
    apply list_elem_of_In. apply in_map_iff in Hin as (y & Hy & Hin).
    apply filter_In in Hin as [Hin _]. apply in_map_iff. eauto.
  - apply Forall_forall. intros x Hx. apply list_elem_of_In in Hx.
    apply filter_In in Hx as [Hx _].
    rewrite Forall_forall in Hq. apply Hq, list_elem_of_In, Hx.
Qed.

Lemma cart_step_ok (events : list cart_event) (cart : list CartItem.t) :
  cart_ok cart -> cart_ok (fold_left cart_step events cart).
Proof.
  revert cart. induction events as [|ev events IH]; intros cart H;
    cbn [fold_left]; [exact H|].
  apply IH. destruct ev; [apply addToCart_ok | apply removeFromCart_ok];
    exact H.
Qed.

Lemma cart_after_ok (events : list cart_event) :
  cart_ok (cart_after events).
Proof. apply (cart_step_ok events []). split; constructor. Qed.

(** X1.  Whatever the user adds and removes, starting from the empty
    cart, the cart never holds two lines for one product and every line
    has a quantity of at least 1. *)
Theorem X1_cart_lines_are_distinct_and_positive :
  forall events : list cart_event,
    NoDup (map CartItem.id (cart_after events)) /\
    Forall (fun item => 1 <= CartItem.quantity item) (cart_after events).
Proof.
  intros events. apply (cart_step_ok events []).
  split; constructor.
Qed.






End cart_facts.

Section checkout_facts.
Import Json Data Spec Shop Server Store.
Local Open Scope Z_scope.

Lemma present_Some (s : option string) (v : string) :
  present s = Some v <-> s = Some v /\ v <> ""%string.
Proof.
  unfold present. destruct s as [w|]; [|intuition discriminate].
  destruct (String.eqb_spec w "").
  - subst. split; [discriminate | intros [[= <-] H]; contradiction].
  - split; [intros [= <-]; auto | intros [[= <-] _]; reflexivity].
Qed.

(** X4.  [handleCheckout] sends nothing unless the visitor is logged in
    and has answered both prompts with a non-empty text; the request it
    sends carries these very answers, the token as a bearer token, and the
    total computed from the cart. *)
Theorem X4_checkout_needs_token_address_and_contact :
  forall (token : option string) (user : option UserInfo.t)
         (cart : list CartItem.t) (address contact : option string)
         (request : Fetch),
    handleCheckout token user cart address contact = Some request ->
    exists tok a c,
      token = Some tok /\ tok <> ""%string /\
      address = Some a /\ a <> ""%string /\
      contact = Some c /\ c <> ""%string /\
      Shop.authorization request = Some ("Bearer " ++ tok)%string /\
      Shop.body request = Some (JSON_stringify (checkout_body cart a c user)) /\
      get_field "total" (match checkout_body cart a c user with
                         | JObj ms => ms
                         | _ => []
                         end)
      = Some (JNum (Zsum (map (fun i => CartItem.price i * CartItem.quantity i)
                              cart))).
Proof.
  intros token user cart address contact request H.
  unfold handleCheckout in H.
  destruct (present token) as [tok|] eqn:Et; [|discriminate].
  destruct (present address) as [a|] eqn:Ea; [|discriminate].
  destruct (present contact) as [c|] eqn:Ec; [|discriminate].
  injection H as <-.
  apply present_Some in Et as [-> Ht].
  apply present_Some in Ea as [-> Ha].
  apply present_Some in Ec as [-> Hc].
  exists tok, a, c. repeat split; try assumption; try reflexivity.
  rewrite <- cartTotal_sum. destruct user; reflexivity.
Qed.

Lemma X4_checkout_needs_token_address_and_contact_witness :
  exists request,
    handleCheckout (Some "t0k3n"%string) None (cart_after []) 
                   (Some "12 Station Road"%string) (Some "9000000000"%string)
    = Some request /\
    Shop.authorization request = Some "Bearer t0k3n"%string.
Proof.
  eexists. split; [reflexivity|].
  destruct (X4_checkout_needs_token_address_and_contact
              (Some "t0k3n"%string) None (cart_after [])
              (Some "12 Station Road"%string) (Some "9000000000"%string)
              _ eq_refl)
    as (tok & a & c & Ht & _ & _ & _ & _ & _ & Hauth & _).
  injection Ht as <-. exact Hauth.
Defined.

Lemma items_of_cart (cart : list CartItem.t) :
  items_of_json (JArr (map cart_item_to_json cart)) =
  Some (map line_of_cart cart).
Proof.
  cbn [items_of_json]. induction cart as [|x cart IH]; [reflexivity|].
  cbn [map items_of_elems]. rewrite IH. reflexivity.
Qed.

Lemma receive_checkout_body (cart : list CartItem.t) (a c : string)
    (user : option UserInfo.t) :
  receive_order (JSON_stringify (checkout_body cart a c user)) =
  Some {| body_items := JArr (map cart_item_to_json cart);
          body_total := cartTotal cart;
          body_address := a;
          body_contact := c;
          body_user_id := option_map UserInfo.id user |}.
Proof.
  unfold receive_order, express_json. rewrite JSON_parse_stringify.
  destruct user; reflexivity.
Qed.

(** X5.  From the cart to the ledger: the server reads the body written
    by [handleCheckout] as the order it describes, and the row inserted by
    [POST /api/orders] has the total of the cart, that is the sum of
    price times quantity over its lines, the address and the contact
    entered, the status "pending", and a snapshot from which the
    aggregations read one line per cart line, with its name and
    quantity. *)
Theorem X5_checkout_reaches_the_ledger :
  forall (cart : list CartItem.t) (a c : string) (user : option UserInfo.t)
         (now : string) (db : Db),
    exists body : OrderBody,
      receive_order (JSON_stringify (checkout_body cart a c user)) = Some body /\
      let row := new_order now db body in
      table_orders (fst (post_orders now body db)) = table_orders db ++ [row] /\
      total row =
        Zsum (map (fun i => CartItem.price i * CartItem.quantity i) cart) /\
      address row = a /\ contact row = c /\
      status row = "pending"%string /\
      user_id row = or_null (option_map UserInfo.id user) /\
      read_items (items row) = Ok (map line_of_cart cart).
Proof.
  intros cart a c user now db. eexists.
  split; [apply receive_checkout_body|].
  cbn [new_order body_items body_total body_address body_contact
       body_user_id total address contact status user_id items].
  repeat split.
  - apply cartTotal_sum.
  - apply read_items_stringify, items_of_cart.
Qed.

(** X6.  A cart that the page can hold and that is not empty, sent with
    a non-empty address and contact, passes the validation that the
    server does not make: the list of lines is not empty and every
    quantity is a positive integer. *)
Theorem X6_checkout_of_a_cart_is_valid :
  forall (events : list cart_event) (a c : string) (user : option UserInfo.t)
         (body : OrderBody),
    cart_after events <> [] ->
    a <> ""%string -> c <> ""%string ->
    receive_order (JSON_stringify (checkout_body (cart_after events) a c user))
      = Some body ->
    valid_order_body (body_items body) (body_address body) (body_contact body)
      = true.
Proof.
  intros events a c user body Hne Ha Hc Hbody.
  rewrite receive_checkout_body in Hbody. injection Hbody as <-.
  cbn [body_items body_address body_contact]. unfold valid_order_body.
  rewrite items_of_cart.
  destruct (cart_after_ok events) as [_ Hq].
  destruct (cart_after events) as [|x cart]; [contradiction|].
  cbn [map]. rewrite andb_true_iff, andb_true_iff. repeat split.
  - apply forallb_forall. intros it Hit.
    change (line_of_cart x :: map line_of_cart cart)
      with (map line_of_cart (x :: cart)) in Hit.
    apply in_map_iff in Hit as (y & <- & Hy).
    rewrite Forall_forall in Hq. specialize (Hq y (proj2 (list_elem_of_In _ _) Hy)).
    apply Z.ltb_lt. cbn. lia.
  - destruct (String.eqb_spec a ""); [contradiction | reflexivity].
  - destruct (String.eqb_spec c ""); [contradiction | reflexivity].
Qed.

Lemma X6_checkout_of_a_cart_is_valid_witness :
  cart_after [Add Demo.red_wine; Add Demo.signature; Add Demo.red_wine] <> [] /\
  valid_order_body
    (JArr (map cart_item_to_json
             (cart_after [Add Demo.red_wine; Add Demo.signature;
                          Add Demo.red_wine])))
    "12 Station Road" "9000000000" = true.
Proof.
  split; [discriminate|].
  exact (X6_checkout_of_a_cart_is_valid
           [Add Demo.red_wine; Add Demo.signature; Add Demo.red_wine]
           "12 Station Road"%string "9000000000"%string None _
           ltac:(discriminate) ltac:(discriminate) ltac:(discriminate)
           (receive_checkout_body _ _ _ _)).
Defined.

End checkout_facts.

(* ===================================================================== *)
(** * Properties of the bearer token *)
(* ===================================================================== *)

Section bearer_facts.
Import Data Shop Server.

Lemma split_no_sep (sep : ascii) (s : string) :
  ~ In sep (list_ascii_of_string s) -> split sep s = [s].
Proof.
  induction s as [|c s IH]; intros H; [reflexivity|].
  cbn [split list_ascii_of_string In] in *.
  destruct (Ascii.eqb_spec c sep) as [E|E]; [exfalso; apply H; left; exact E|].
  rewrite IH; [reflexivity | tauto].
Qed.

Lemma split_append_sep (sep : ascii) (w t : string) :
  ~ In sep (list_ascii_of_string w) ->
  split sep (w ++ String sep t) = w :: split sep t.
Proof.
  induction w as [|c w IH]; intros H.
  - simpl. rewrite Ascii.eqb_refl. reflexivity.
  - simpl in *.
    destruct (Ascii.eqb_spec c sep) as [E|E];
      [exfalso; apply H; left; exact E|].
    rewrite IH; [reflexivity | tauto].
Qed.

Lemma truthy_append (w t : string) : truthy (w ++ String " " t) = true.
Proof. destruct w; reflexivity. Qed.



End bearer_facts.

(* ===================================================================== *)
(** * Properties of the accounts *)
(* ===================================================================== *)

Section accounts_facts.
Import Json Data Server Store.
Local Open Scope Z_scope.

Lemma has_email_In (e : string) (t : Table User) :
  has_email e t = true <-> In e (emails t).
Proof.
  unfold has_email, emails. rewrite existsb_exists. split.
  - intros (r & Hr & E). apply String.eqb_eq in E. subst e.
    apply in_map_iff. eauto.
  - intros H. apply in_map_iff in H as (r & <- & Hr).
    exists r. split; [exact Hr | apply String.eqb_refl].
Qed.

Lemma signup_cases (hashSync : string -> string -> string) (salt : string)
    (body : SignupBody) (t : Table User) :
  signup hashSync salt body t =
  if has_email (signup_email body) t then
    (t, SendJson 400 (JObj [("error"%string, JStr "User already exists")]))
  else
    (insert {| user_name := signup_name body;
               email := signup_email body;
               password := hashSync salt (signup_password body);
               role := "customer" |} t,
     SendJson 200 (JObj [("message"%string, JStr "Signup successful")])).
Proof.
  unfold signup, insert_user. cbn [email].
  destruct (has_email (signup_email body) t); reflexivity.
Qed.

(** X8.  [POST /api/auth/signup] never makes an administrator and never
    touches an existing account: the rows that were there stay as they
    are, at most one row is added, its role is "customer", and the set of
    administrators is the same after as before. *)
Theorem X8_signup_never_makes_an_admin :
  forall (hashSync : string -> string -> string) (salt : string)
         (body : SignupBody) (t : Table User),
    let t' := fst (signup hashSync salt body t) in
    List.filter is_admin_row (rows t') = List.filter is_admin_row (rows t) /\
    exists added : list (Z * User),
      rows t' = rows t ++ added /\
      (length added <= 1)%nat /\
      Forall (fun r => role (snd r) = "customer"%string) added.
Proof.
  intros hashSync salt body t t'. subst t'. rewrite signup_cases.
  destruct (has_email (signup_email body) t); cbn [fst insert rows].
  - split; [reflexivity|]. exists []. rewrite app_nil_r.
    repeat split; [cbn; lia | constructor].
  - split.
    + rewrite List.filter_app. cbn. apply app_nil_r.
    + eexists. split; [reflexivity|]. split; [cbn; lia|].
      repeat constructor.
Qed.

Lemma next_id_fresh {A : Type} (t : Table A) :
  Forall (fun i => i < next_id t) (map fst (rows t)) /\ seq t < next_id t.
Proof.
  unfold next_id. generalize (seq t) as s.
  induction (rows t) as [|r l IH]; intros s; cbn [map fold_right].
  - split; [constructor | lia].
  - destruct (IH s) as [H1 H2]. split; [|lia].
    constructor; [lia|]. eapply List.Forall_impl; [|exact H1].
    cbn beta. intros; lia.
Qed.

(** X9.  The email addresses stay unique: signing up with an address
    that is taken is answered 400 "User already exists" and changes
    nothing; with a new address it is answered 200 and adds one account,
    under an id that no account has, with the hash of the password. *)
Theorem X9_signup_keeps_emails_unique :
  forall (hashSync : string -> string -> string) (salt : string)
         (body : SignupBody) (t : Table User),
    NoDup (emails t) ->
    let t' := fst (signup hashSync salt body t) in
    let response := snd (signup hashSync salt body t) in
    NoDup (emails t') /\
    if has_email (signup_email body) t then
      t' = t /\ status_code response = 400%nat
    else
      rows t' =
        rows t ++ [(next_id t,
                    {| user_name := signup_name body;
                       email := signup_email body;
                       password := hashSync salt (signup_password body);
                       role := "customer" |})] /\
      ~ In (next_id t) (map fst (rows t)) /\
      status_code response = 200%nat.
Proof.
  intros hashSync salt body t Hnd t' response. subst t' response.
  rewrite signup_cases.
  destruct (has_email (signup_email body) t) eqn:E; cbn [fst snd].
  - auto.
  - split; [|split; [reflexivity|split; [|reflexivity]]].
    + unfold emails. cbn [insert rows]. rewrite map_app. cbn [map snd email].
      apply NoDup_app. repeat split; [exact Hnd | | apply NoDup_singleton].
      intros e He Hin. apply list_elem_of_In in He.
      apply list_elem_of_In in Hin. cbn in Hin. destruct Hin as [<-|[]].
      apply has_email_In in He. congruence.
    + intros Hin. destruct (next_id_fresh t) as [H _].
      rewrite Forall_forall in H.
      specialize (H _ (proj2 (list_elem_of_In _ _) Hin)). lia.
Qed.

Lemma X9_signup_keeps_emails_unique_witness :
  NoDup (emails empty_table) /\
  NoDup (emails (fst (signup Demo.hash "salt" Demo.asha empty_table))).
Proof.
  assert (H : NoDup (emails empty_table)) by constructor.
  split; [exact H|].
  apply (X9_signup_keeps_emails_unique Demo.hash "salt" Demo.asha empty_table H).
Defined.

Lemma user_by_email_unique (t : Table User) (r : Z * User) :
  NoDup (emails t) -> In r (rows t) ->
  user_by_email (email (snd r)) t = Some r.
Proof.
  unfold user_by_email, emails.
  induction (rows t) as [|x l IH]; intros Hnd Hin; [destruct Hin|].
  cbn [map find] in *. apply NoDup_cons in Hnd as [Hx Hnd].
  destruct Hin as [->|Hin]; [rewrite String.eqb_refl; reflexivity|].
  destruct (String.eqb_spec (email (snd x)) (email (snd r))) as [E|E].
  - exfalso. apply Hx. rewrite E. apply list_elem_of_In, in_map_iff. eauto.
  - apply IH; assumption.
Qed.

(** X10.  When the email addresses are unique, an account logs in with
    its address and a password that matches its hash, whatever its place
    in the table: the answer is 200 and carries a token signed for the
    id, the role and the name of that very account, and the same three
    values as [user].  A password that does not match is answered 401
    "Invalid credentials", and so is an address that no account has. *)
Theorem X10_login_finds_the_account :
  forall (compareSync : string -> string -> bool)
         (jwt_sign : Jwt.payload -> string)
         (t : Table User) (r : Z * User) (pw : string),
    NoDup (emails t) -> In r (rows t) ->
    login compareSync jwt_sign
      {| login_email := email (snd r); login_password := pw |} t
    = (if compareSync pw (password (snd r)) then
         SendJson 200
           (JObj [("token"%string,
                   JStr (jwt_sign {| Jwt.id := fst r;
                                     Jwt.role := role (snd r);
                                     Jwt.name := user_name (snd r) |}));
                  ("user"%string,
                   JObj [("id"%string, JNum (fst r));
                         ("name"%string, JStr (user_name (snd r)));
                         ("role"%string, JStr (role (snd r)))])])
       else SendJson 401 (JObj [("error"%string, JStr "Invalid credentials")]))
    /\
    forall e : string,
      has_email e t = false ->
      login compareSync jwt_sign {| login_email := e; login_password := pw |} t
      = SendJson 401 (JObj [("error"%string, JStr "Invalid credentials")]).
Proof.
  intros compareSync jwt_sign t r pw Hnd Hin. split.
  - unfold login. cbn [login_email login_password].
    rewrite (user_by_email_unique t r Hnd Hin).
    destruct (compareSync pw (password (snd r))); reflexivity.
  - intros e He. unfold login, user_by_email. cbn [login_email].
    destruct (find _ (rows t)) as [x|] eqn:E; [|reflexivity].
    apply find_some in E as [Hx Ee]. exfalso.
    assert (has_email e t = true); [|congruence].
    unfold has_email. apply existsb_exists. eauto.
Qed.

Lemma X10_login_finds_the_account_witness :
  let t := fst (signup Demo.hash "salt" Demo.asha empty_table) in
  status_code
    (login Demo.compare Demo.sign
       {| login_email := "asha@example.com"; login_password := "s3cret" |} t)
  = 200%nat /\
  status_code
    (login Demo.compare Demo.sign
       {| login_email := "asha@example.com"; login_password := "guess" |} t)
  = 401%nat.
Proof.
  intros t.
  assert (Hnd : NoDup (emails t)) by (apply NoDup_singleton).
  assert (Hin : In (1, {| user_name := "Asha"; email := "asha@example.com";
                          password := "salts3cret"; role := "customer" |})
                   (rows t)) by (left; reflexivity).
  split.
  - refine (eq_trans (f_equal status_code
      (proj1 (X10_login_finds_the_account Demo.compare Demo.sign t _
                "s3cret" Hnd Hin))) _).
    reflexivity.
  - refine (eq_trans (f_equal status_code
      (proj1 (X10_login_finds_the_account Demo.compare Demo.sign t _
                "guess" Hnd Hin))) _).
    reflexivity.
Defined.

Lemma find_app_new (e : string) (l : list (Z * User)) (r : Z * User) :
  existsb (fun x => String.eqb (email (snd x)) e) l = false ->
  email (snd r) = e ->
  find (fun x => String.eqb (email (snd x)) e) (l ++ [r]) = Some r.
Proof.
  intros Hl Hr. induction l as [|x l IH]; cbn [app find existsb] in *.
  - rewrite Hr, String.eqb_refl. reflexivity.
  - apply orb_false_iff in Hl as [Hx Hl]. rewrite Hx. apply IH, Hl.
Qed.

(** X11.  An account made by signup can log in at once: with an address
    that was free, and a hash function whose hash of the password is
    recognised by the comparison, logging in with the same address and
    password is answered 200, with a token and a [user] for the new id,
    the given name and the role "customer". *)
Theorem X11_signup_then_login :
  forall (hashSync : string -> string -> string)
         (compareSync : string -> string -> bool)
         (jwt_sign : Jwt.payload -> string)
         (salt : string) (body : SignupBody) (t : Table User),
    has_email (signup_email body) t = false ->
    compareSync (signup_password body)
                (hashSync salt (signup_password body)) = true ->
    login compareSync jwt_sign
      {| login_email := signup_email body;
         login_password := signup_password body |}
      (fst (signup hashSync salt body t))
    = SendJson 200
        (JObj [("token"%string,
                JStr (jwt_sign {| Jwt.id := next_id t;
                                  Jwt.role := "customer";
                                  Jwt.name := signup_name body |}));
               ("user"%string,
                JObj [("id"%string, JNum (next_id t));
                      ("name"%string, JStr (signup_name body));
                      ("role"%string, JStr "customer")])]).
Proof.
  intros hashSync compareSync jwt_sign salt body t Hfree Hhash.
  rewrite signup_cases, Hfree. cbn [fst insert].
  unfold login, user_by_email. cbn [login_email login_password rows insert].
  rewrite (find_app_new (signup_email body) (rows t)
             (next_id t,
              {| user_name := signup_name body;
                 email := signup_email body;
                 password := hashSync salt (signup_password body);
                 role := "customer" |}) Hfree eq_refl).
  cbn [snd password negb]. rewrite Hhash. reflexivity.
Qed.

Lemma X11_signup_then_login_witness :
  status_code
    (login Demo.compare Demo.sign
       {| login_email := "asha@example.com"; login_password := "s3cret" |}
       (fst (signup Demo.hash "salt" Demo.asha empty_table)))
  = 200%nat.
Proof.
  refine (eq_trans (f_equal status_code
    (X11_signup_then_login Demo.hash Demo.compare Demo.sign "salt" Demo.asha
       empty_table eq_refl eq_refl)) _).
  reflexivity.
Defined.

(** X12.  What a login is worth on the privileged routes.  Take an
    account that logs in, a signature that the verification recognises
    for its payload, and a token without space; sent as the client sends
    it ("Bearer " and the token), the token reaches the handler of a
    privileged route when the role of the account is "admin", and is
    answered 403 otherwise, as is the case of every account made by
    signup. *)
Theorem X12_login_token_on_privileged_routes :
  forall (compareSync : string -> string -> bool)
         (jwt_sign : Jwt.payload -> string)
         (jwt_verify : string -> Jwt.verified)
         (t : Table User) (r : Z * User) (pw : string) (route : Route),
    NoDup (emails t) -> In r (rows t) ->
    compareSync pw (password (snd r)) = true ->
    jwt_verify (jwt_sign (token_payload r)) = Jwt.Valid (token_payload r) ->
    jwt_sign (token_payload r) <> ""%string ->
    ~ In " "%char (list_ascii_of_string (jwt_sign (token_payload r))) ->
    privileged route = true ->
    exists token : string,
      login compareSync jwt_sign
        {| login_email := email (snd r); login_password := pw |} t
      = SendJson 200
          (JObj [("token"%string, JStr token);
                 ("user"%string,
                  JObj [("id"%string, JNum (fst r));
                        ("name"%string, JStr (user_name (snd r)));
                        ("role"%string, JStr (role (snd r)))])]) /\
      dispatch jwt_verify route
        {| authorization := Some (Shop.bearer token); user := None |}
      = if String.eqb (role (snd r)) "admin" then
          Next {| authorization := Some (Shop.bearer token);
                  user := Some (token_payload r) |}
        else Respond (SendStatus 403).
Proof.
  intros compareSync jwt_sign jwt_verify t r pw route Hnd Hin Hpw Hverify
    Hne Hspace Hroute.
  exists (jwt_sign (token_payload r)). split.
  - unfold login. cbn [login_email login_password].
    rewrite (user_by_email_unique t r Hnd Hin), Hpw. reflexivity.
  - rewrite (dispatch_privileged jwt_verify route _ Hroute), guards_spec.
    assert (Htok : token_of
              {| authorization := Some (Shop.bearer (jwt_sign (token_payload r)));
                 user := None |} = Some (jwt_sign (token_payload r))).
    { unfold token_of, Shop.bearer. cbn [authorization].
      change ("Bearer " ++ jwt_sign (token_payload r))%string
        with ("Bearer" ++ String " " (jwt_sign (token_payload r)))%string.
      rewrite truthy_append, split_append_sep.
      - rewrite (split_no_sep " " _ Hspace). cbn [nth_error].
        unfold truthy.
        destruct (String.eqb_spec (jwt_sign (token_payload r)) "");
          [contradiction | reflexivity].
      - cbn. intros [E|[E|[E|[E|[E|[E|[]]]]]]]; discriminate E. }
    rewrite Htok, Hverify. cbn [authorization Jwt.role token_payload].
    reflexivity.
Qed.

Lemma X12_login_token_on_privileged_routes_witness :
  let t := fst (signup Demo.hash "salt" Demo.asha
                  {| rows := []; seq := 6 |}) in
  exists token : string,
    dispatch Sample.verify_sample GET_admin_orders
      {| authorization := Some (Shop.bearer token); user := None |}
    = Respond (SendStatus 403).
Proof.
  intros t.
  assert (Hnd : NoDup (emails t)) by (apply NoDup_singleton).
  assert (Hin : In (7, {| user_name := "Asha"; email := "asha@example.com";
                          password := "salts3cret"; role := "customer" |})
                   (rows t)) by (left; reflexivity).
  destruct (X12_login_token_on_privileged_routes Demo.compare Demo.sign
              Sample.verify_sample t _ "s3cret" GET_admin_orders Hnd Hin
              eq_refl eq_refl)
    as (token & _ & H).
  - discriminate.
  - cbn. intuition discriminate.
  - reflexivity.
  - exists token. exact H.
Defined.

End accounts_facts.

(* ===================================================================== *)
(** * Properties of the tables *)
(* ===================================================================== *)

Section table_facts.
Import Json Data Server Store.
Local Open Scope Z_scope.

Lemma next_id_ok {A : Type} (t : Table A) :
  ids_ok t -> next_id t = seq t + 1.
Proof.
  intros (_ & Hle & _). unfold next_id.
  induction (rows t) as [|r l IH]; cbn [map fold_right] in *; [reflexivity|].
  apply Forall_cons in Hle as [Hr Hle]. specialize (IH Hle). lia.
Qed.

Lemma insert_ok {A : Type} (a : A) (t : Table A) :
  ids_ok t -> ids_ok (insert a t).
Proof.
  intros H. pose proof (next_id_ok t H) as Hn. destruct H as (Hnd & Hle & H0).
  unfold ids_ok. cbn [insert rows seq]. rewrite map_app. cbn [map fst].
  rewrite Hn. repeat split.
  - apply NoDup_app. repeat split; [exact Hnd | | apply NoDup_singleton].
    intros i Hi Hin. apply list_elem_of_In in Hin. cbn in Hin.
    destruct Hin as [<-|[]]. rewrite Forall_forall in Hle.
    specialize (Hle _ Hi). lia.
  - apply Forall_app. split.
    + eapply List.Forall_impl; [|exact Hle]. cbn beta. intros; lia.
    + repeat constructor; lia.
  - lia.
Qed.

Lemma delete_ok {A : Type} (key : option Z) (t : Table A) :
  ids_ok t -> ids_ok (delete key t).
Proof.
  intros (Hnd & Hle & H0). destruct key as [k|]; [|repeat split; assumption].
  unfold ids_ok. cbn [delete rows seq]. split; [|split; [|exact H0]].
  - induction (rows t) as [|r l IH]; cbn [List.filter map]; [constructor|].
    cbn [map] in Hnd, Hle. apply NoDup_cons in Hnd as [Hr Hnd].
    apply Forall_cons in Hle as [_ Hle].
    destruct (negb _); [|exact (IH Hnd Hle)].
    cbn [map]. apply NoDup_cons. split; [|exact (IH Hnd Hle)].
    intros Hin. apply Hr. apply list_elem_of_In in Hin.
    apply list_elem_of_In. apply in_map_iff in Hin as (y & Hy & Hin).
    apply filter_In in Hin as [Hin _]. apply in_map_iff. eauto.
  - apply Forall_forall. intros i Hi. apply list_elem_of_In in Hi.
    apply in_map_iff in Hi as (y & <- & Hy). apply filter_In in Hy as [Hy _].
    rewrite Forall_forall in Hle. apply Hle, list_elem_of_In, in_map_iff.
    eauto.
Qed.

Lemma table_after_ok {A : Type} (events : list (table_event A)) :
  ids_ok (table_after events).
Proof.
  unfold table_after.
  assert (H : ids_ok (@empty_table A)).
  { repeat split; [constructor | constructor | cbn; lia]. }
  revert H. generalize (@empty_table A) as t.
  induction events as [|ev events IH]; intros t H; cbn [fold_left]; [exact H|].
  apply IH. destruct ev; [apply insert_ok | apply delete_ok]; exact H.
Qed.

(** X13.  AUTOINCREMENT: whatever rows are inserted and deleted since
    the creation of a table, its ids are distinct and positive, the next
    id is one more than the largest id ever given, and deleting rows does
    not bring it down: an id is never given twice, even after the row
    that had it is gone. *)
Theorem X13_ids_are_never_reused :
  forall (A : Type) (events : list (table_event A)) (key : option Z),
    let t := table_after events in
    NoDup (map fst (rows t)) /\
    Forall (fun i => 1 <= i < next_id t) (map fst (rows t)) /\
    next_id t = seq t + 1 /\
    next_id (delete key t) = next_id t.
Proof.
  intros A events key t.
  pose proof (table_after_ok events) as H. fold t in H.
  pose proof (next_id_ok t H) as Hn.
  pose proof (next_id_ok _ (delete_ok key t H)) as Hd.
  destruct H as (Hnd & Hle & H0).
  split; [exact Hnd|]. split.
  - eapply List.Forall_impl; [|exact Hle]. cbn beta. intros; lia.
  - split; [exact Hn|]. rewrite Hd, Hn. destruct key; reflexivity.
Qed.

Lemma filter_all {A : Type} (f : A -> bool) (l : list A) :
  Forall (fun x => f x = true) l -> List.filter f l = l.
Proof.
  induction 1 as [|x l Hx _ IH]; [reflexivity|].
  cbn [List.filter]. rewrite Hx, IH. reflexivity.
Qed.

(** X14.  Deleting the row of an id that the table does not hold, or of
    a parameter that is no integer, leaves the table as it is and is
    answered success all the same: there is no 404. *)
Theorem X14_deleting_nothing_succeeds :
  forall (A : Type) (key : option Z) (t : Table A),
    Forall (fun r => Some (fst r) <> key) (rows t) ->
    delete_row key t = (t, SendJson 200 (JObj [("success"%string, JBool true)])).
Proof.
  intros A key t H. unfold delete_row. f_equal.
  destruct key as [k|]; [|reflexivity]. destruct t as [l s].
  cbn [delete rows seq] in *. f_equal. apply filter_all.
  eapply List.Forall_impl; [|exact H]. cbn beta. intros r Hr.
  destruct (Z.eqb_spec (fst r) k); [congruence | reflexivity].
Qed.

Lemma X14_deleting_nothing_succeeds_witness :
  let t := insert "/uploads/a.jpg"%string empty_table in
  delete_row (Some 5) t = (t, success) /\ delete_row None t = (t, success).
Proof.
  intros t. split.
  - apply (X14_deleting_nothing_succeeds string (Some 5) t).
    repeat constructor. cbn. discriminate.
  - apply (X14_deleting_nothing_succeeds string None t).
    repeat constructor. cbn. discriminate.
Defined.

Lemma delete_after_insert {A : Type} (a : A) (t : Table A) :
  rows (delete (Some (next_id t)) (insert a t)) = rows t.
Proof.
  cbn [delete insert rows]. rewrite List.filter_app. cbn [List.filter fst].
  rewrite Z.eqb_refl. cbn [negb]. rewrite app_nil_r.
  apply filter_all. destruct (next_id_fresh t) as [H _].
  apply Forall_forall. intros r Hr. rewrite Forall_forall in H.
  assert (Hlt : fst r < next_id t).
  { apply H, list_elem_of_In, in_map_iff. exists r.
    split; [reflexivity | apply list_elem_of_In, Hr]. }
  destruct (Z.eqb_spec (fst r) (next_id t)); [lia | reflexivity].
Qed.

(** X15.  The gallery.  Without a file, [POST /api/gallery] answers 400
    and adds nothing.  With a file it adds one row, whose image is
    "/uploads/" followed by the name of the file, and answers with the id
    of that row; deleting that id gives back the rows that were there,
    and the next image gets another id. *)
Theorem X15_gallery_insert_then_delete :
  forall (filename : string) (t : Table string),
    let added := fst (post_gallery (Some filename) t) in
    let removed := fst (delete_row (Some (next_id t)) added) in
    post_gallery None t =
      (t, SendJson 400 (JObj [("error"%string, JStr "No image uploaded")])) /\
    snd (post_gallery (Some filename) t) =
      SendJson 200
        (JObj [("id"%string, JNum (next_id t));
               ("image"%string, JStr ("/uploads/" ++ filename))]) /\
    rows added = rows t ++ [(next_id t, ("/uploads/" ++ filename)%string)] /\
    Forall (fun r => fst r <> next_id t) (rows t) /\
    rows removed = rows t /\
    next_id removed = next_id t + 1.
Proof.
  intros filename t added removed. subst added removed.
  cbn [post_gallery delete_row fst snd].
  split; [reflexivity|]. split; [reflexivity|]. split; [reflexivity|].
  destruct (next_id_fresh t) as [Hlt Hseq].
  split.
  - apply Forall_forall. intros r Hr Heq. rewrite Forall_forall in Hlt.
    assert (fst r < next_id t); [|lia].
    apply Hlt, list_elem_of_In, in_map_iff. exists r.
    split; [reflexivity | apply list_elem_of_In, Hr].
  - split; [apply delete_after_insert|].
    unfold next_id at 1. rewrite delete_after_insert.
    cbn [delete insert seq].
    assert (H : forall l s, Forall (fun i => i < s) l ->
              fold_right Z.max s l = s).
    { induction l as [|i l IH]; intros s Hl; cbn [fold_right]; [reflexivity|].
      apply Forall_cons in Hl as [Hi Hl]. rewrite (IH s Hl). lia. }
    rewrite (H _ _ Hlt). reflexivity.
Qed.

(** X16.  The hero image.  An upload replaces the image and nothing
    else: the settings read back by the client give "/uploads/" followed
    by the name of the file, every other key keeps its value, and an
    earlier upload leaves no trace once a later one is made.  Without a
    file the answer is 400 and the settings are as before. *)
Theorem X16_hero_image_is_replaced :
  forall (filename earlier heroImage : string) (m : gmap string string),
    let m1 := fst (post_settings_hero (Some filename) m) in
    fetchSettings (get_settings m1) heroImage = ("/uploads/" ++ filename)%string /\
    base.delete "hero_image"%string m1 = base.delete "hero_image"%string m /\
    fst (post_settings_hero (Some filename)
           (fst (post_settings_hero (Some earlier) m))) = m1 /\
    post_settings_hero None m =
      (m, SendJson 400 (JObj [("error"%string, JStr "No image uploaded")])).
Proof.
  intros filename earlier heroImage m m1. subst m1.
  cbn [post_settings_hero fst]. repeat split.
  - unfold fetchSettings, get_settings. rewrite lookup_insert_eq. reflexivity.
  - apply delete_insert_eq.
  - apply insert_insert_eq.
Qed.

(** X17.  The rating of a review is not checked: a negative rating is
    accepted and stored as it is, and the stars of that review cannot be
    drawn, [Array] throws a [RangeError]. *)
Theorem X17_negative_rating_is_stored :
  forall (n : Z) (who text : string) (t : Table Review),
    n < 0 ->
    let body := {| body_user_name := who; body_comment := text;
                   body_rating := Some n |} in
    post_reviews body t =
      (insert {| review_user_name := who; rating := n; comment := text |} t,
       SendJson 200 (JObj [("success"%string, JBool true)])) /\
    stars n = RangeError.
Proof.
  intros n who text t Hn body. subst body. split.
  - unfold post_reviews. cbn [body_user_name body_comment body_rating].
    destruct n; [lia | lia | reflexivity].
  - unfold stars. destruct (Z.leb_spec 0 n); [lia | reflexivity].
Qed.

Lemma X17_negative_rating_is_stored_witness :
  map (fun r => rating (snd r))
      (rows (fst (post_reviews {| body_user_name := "x"; body_comment := "y";
                                  body_rating := Some (-1) |} empty_table)))
  = [-1] /\
  stars (-1) = RangeError.
Proof.
  destruct (X17_negative_rating_is_stored (-1) "x" "y" empty_table eq_refl)
    as [H1 H2].
  split; [rewrite H1; reflexivity | exact H2].
Defined.



End table_facts.

(* ===================================================================== *)
(** * Properties of the start of the server *)
(* ===================================================================== *)

Section startup_facts.
Import Json Data Server Store.
Local Open Scope Z_scope.

Lemma size_0_lookup (m : gmap string string) (k : string) :
  Nat.eqb (size m) 0 = true -> m !! k = None.
Proof.
  intros H. apply Nat.eqb_eq, map_size_empty_iff in H. subst m.
  apply lookup_empty.
Qed.

(** The start step by step: the settings and the seeding cannot fail,
    the account of the administrator can. *)
Lemma startup_steps (hashSync : string -> string -> string) (salt : string)
    (db : Tables) :
  startup hashSync salt db =
  let seeded := match settings db !! "seeded"%string with
                | Some _ => true
                | None => false
                end in
  bind (if has_admin (users db) then Done (users db)
        else insert_user {| user_name := "NIORA Admin";
                            email := "admin@niora.com";
                            password := hashSync salt "BEANIORA";
                            role := "admin" |} (users db))
    (fun users1 =>
       Done {| users := users1;
               products :=
                 if seeded || negb (Nat.eqb (count (products db)) 0)
                 then products db
                 else fold_left (fun t p => insert p t) seedProducts (products db);
               gallery :=
                 if seeded || negb (Nat.eqb (count (gallery db)) 0)
                 then gallery db
                 else fold_left (fun t img => insert img t) seedGallery (gallery db);
               settings := settings_after_start (settings db);
               reviews := reviews db |}).
Proof.
  unfold startup, settings_after_start, has_admin.
  destruct (Nat.eqb (size (settings db)) 0) eqn:Es.
  - pose proof (size_0_lookup _ "hero_image" Es) as Hh.
    pose proof (size_0_lookup _ "seeded" Es) as Hs.
    unfold insert_setting at 1. rewrite Hh. cbn [bind].
    rewrite lookup_insert_ne by discriminate. rewrite Hs.
    unfold insert_setting. rewrite lookup_insert_ne by discriminate.
    rewrite Hs. cbn [bind orb fst snd].
    destruct (Nat.eqb (length _) 0); cbn [negb];
      destruct (Nat.eqb (count (products db)) 0),
               (Nat.eqb (count (gallery db)) 0); reflexivity.
  - cbn [bind].
    destruct (settings db !! "seeded"%string) as [v|] eqn:Hs.
    + cbn [bind orb fst snd].
      destruct (Nat.eqb (length _) 0); reflexivity.
    + unfold insert_setting. rewrite Hs. cbn [bind orb fst snd].
      destruct (Nat.eqb (length _) 0); cbn [negb];
        destruct (Nat.eqb (count (products db)) 0),
                 (Nat.eqb (count (gallery db)) 0); reflexivity.
Qed.

(** X19.  The start of the server cannot fail on the settings nor on
    the seeding; it throws in one case only: no account is an
    administrator and the address "admin@niora.com" is taken. *)
Theorem X19_start_fails_only_on_the_admin_address :
  forall (hashSync : string -> string -> string) (salt : string) (db : Tables),
    match startup hashSync salt db with
    | ConstraintError => true
    | Done _ => false
    end
    = negb (has_admin (users db)) && has_email "admin@niora.com" (users db).
Proof.
  intros hashSync salt db. rewrite startup_steps. cbn zeta.
  destruct (has_admin (users db)); [reflexivity|].
  unfold insert_user. cbn [email negb andb].
  destruct (has_email "admin@niora.com" (users db)); reflexivity.
Qed.

Lemma settings_after_start_seeded (m : gmap string string) :
  exists v, settings_after_start m !! "seeded"%string = Some v.
Proof.
  unfold settings_after_start.
  set (m1 := if Nat.eqb (size m) 0
             then <["hero_image"%string := default_hero_image]> m else m).
  destruct (m1 !! "seeded"%string) as [v|] eqn:E;
    [eauto | eexists; apply lookup_insert_eq].
Qed.

Lemma seeded_not_empty (m : gmap string string) (v : string) :
  m !! "seeded"%string = Some v -> Nat.eqb (size m) 0 = false.
Proof.
  intros H. apply Nat.eqb_neq. intros E.
  apply map_size_empty_iff in E. subst m. rewrite lookup_empty in H.
  discriminate.
Qed.

Lemma settings_after_start_fixed (m : gmap string string) (v : string) :
  m !! "seeded"%string = Some v -> settings_after_start m = m.
Proof.
  intros H. unfold settings_after_start.
  rewrite (seeded_not_empty m v H), H. reflexivity.
Qed.

Lemma has_admin_insert (u : User) (t : Table User) :
  role u = "admin"%string -> has_admin (insert u t) = true.
Proof.
  intros H. unfold has_admin. cbn [insert rows].
  rewrite List.filter_app. cbn [List.filter]. unfold is_admin_row at 2.
  cbn [snd]. rewrite H. cbn. rewrite length_app. cbn [length].
  destruct (length _ + 1)%nat eqn:E; [lia | reflexivity].
Qed.

(** What a start that does not throw leaves. *)
Lemma startup_Done (hashSync : string -> string -> string) (salt : string)
    (db db1 : Tables) :
  startup hashSync salt db = Done db1 ->
  has_admin (users db1) = true /\
  settings db1 = settings_after_start (settings db) /\
  reviews db1 = reviews db /\
  (has_admin (users db) = true -> users db1 = users db) /\
  (forall v, settings db !! "seeded"%string = Some v ->
             products db1 = products db /\ gallery db1 = gallery db).
Proof.
  rewrite startup_steps. cbn zeta.
  destruct (has_admin (users db)) eqn:Ha.
  - cbn [bind]. intros [= <-]. cbn [users settings reviews products gallery].
    repeat split; try assumption; try reflexivity;
      match goal with
      | Hv : settings db !! _ = Some _ |- _ => rewrite Hv; reflexivity
      end.
  - unfold insert_user. destruct (has_email _ (users db)); [discriminate|].
    cbn [bind]. intros [= <-]. cbn [users settings reviews products gallery].
    repeat split; try reflexivity; try discriminate;
      try match goal with
          | Hv : settings db !! _ = Some _ |- _ => rewrite Hv; reflexivity
          end.
    apply has_admin_insert. reflexivity.
Qed.

(** X20.  A start that does not throw leaves an administrator and the
    marker "seeded", and starting again changes nothing, whatever the
    salt drawn for the password. *)
Theorem X20_start_is_idempotent :
  forall (hashSync hashSync' : string -> string -> string)
         (salt salt' : string) (db db1 : Tables),
    startup hashSync salt db = Done db1 ->
    has_admin (users db1) = true /\
    (exists v, settings db1 !! "seeded"%string = Some v) /\
    startup hashSync' salt' db1 = Done db1.
Proof.
  intros hashSync hashSync' salt salt' db db1 H.
  apply startup_Done in H as (Ha & Hs & _).
  destruct (settings_after_start_seeded (settings db)) as [v Hv].
  rewrite <- Hs in Hv.
  split; [exact Ha|]. split; [eauto|].
  rewrite startup_steps. cbn zeta. rewrite Ha, Hv. cbn [bind orb].
  rewrite (settings_after_start_fixed _ v Hv). destruct db1; reflexivity.
Qed.

Lemma X20_start_is_idempotent_witness :
  exists db1,
    startup Demo.hash "salt" fresh = Done db1 /\
    startup Demo.hash "pepper" db1 = Done db1 /\
    count (products db1) = 4%nat /\ count (gallery db1) = 4%nat.
Proof.
  destruct (startup Demo.hash "salt" fresh) as [db1|] eqn:E;
    [|vm_compute in E; discriminate].
  exists db1. split; [reflexivity|].
  split.
  - apply (X20_start_is_idempotent Demo.hash Demo.hash "salt" "pepper" fresh
             db1 E).
  - rewrite startup_steps in E. injection E as <-. split; reflexivity.
Defined.

(** X21.  Once the marker "seeded" is set, a start never brings the
    sample products or the sample gallery back, even when every product
    and every image has been deleted: it leaves both tables and the
    settings as they are. *)
Theorem X21_no_reseeding_after_the_marker :
  forall (hashSync : string -> string -> string) (salt v : string)
         (db db1 : Tables),
    settings db !! "seeded"%string = Some v ->
    startup hashSync salt db = Done db1 ->
    products db1 = products db /\ gallery db1 = gallery db /\
    settings db1 = settings db.
Proof.
  intros hashSync salt v db db1 Hv H.
  apply startup_Done in H as (_ & Hs & _ & _ & Hpg).
  destruct (Hpg v Hv) as [Hp Hg].
  rewrite Hs, (settings_after_start_fixed _ v Hv). auto.
Qed.

Lemma X21_no_reseeding_after_the_marker_witness :
  let emptied :=
    {| users := insert {| user_name := "NIORA Admin";
                          email := "admin@niora.com";
                          password := "x"; role := "admin" |} empty_table;
       products := empty_table;
       gallery := empty_table;
       settings := <["seeded"%string := "true"%string]> ∅;
       reviews := empty_table |} in
  exists db1,
    startup Demo.hash "salt" emptied = Done db1 /\
    rows (products db1) = [] /\ rows (gallery db1) = [].
Proof.
  intros emptied.
  destruct (startup Demo.hash "salt" emptied) as [db1|] eqn:E;
    [|vm_compute in E; discriminate].
  exists db1. split; [reflexivity|].
  destruct (X21_no_reseeding_after_the_marker Demo.hash "salt" "true" emptied
              db1 eq_refl E) as (Hp & Hg & _).
  rewrite Hp, Hg. split; reflexivity.
Defined.

Lemma signup_has_admin (hashSync : string -> string -> string)
    (l : list (string * SignupBody)) (t : Table User) :
  has_admin t = true ->
  has_admin (fold_left (fun t sb => fst (signup hashSync (fst sb) (snd sb) t))
                       l t) = true.
Proof.
  revert t. induction l as [|sb l IH]; intros t H; cbn [fold_left]; [exact H|].
  apply IH. rewrite signup_cases.
  destruct (has_email _ t); cbn [fst]; [exact H|].
  unfold has_admin in *. cbn [insert rows]. rewrite List.filter_app.
  cbn. rewrite app_nil_r. exact H.
Qed.

(** X22.  Signups cannot break the start: once an account is an
    administrator, which every start that does not throw ensures, the
    server starts after any sequence of signups, and it starts without
    touching the accounts. *)
Theorem X22_start_survives_signups :
  forall (hashSync : string -> string -> string) (salt : string)
         (signups : list (string * SignupBody)) (db : Tables),
    has_admin (users db) = true ->
    let accounts :=
      fold_left (fun t sb => fst (signup hashSync (fst sb) (snd sb) t))
                signups (users db) in
    exists db1,
      startup hashSync salt
        {| users := accounts; products := products db; gallery := gallery db;
           settings := settings db; reviews := reviews db |} = Done db1 /\
      users db1 = accounts.
Proof.
  intros hashSync salt signups db Ha accounts.
  pose proof (signup_has_admin hashSync signups (users db) Ha) as Ha'.
  fold accounts in Ha'.
  rewrite startup_steps. cbn zeta. cbn [users]. rewrite Ha'. cbn [bind].
  eexists. split; reflexivity.
Qed.

Lemma X22_start_survives_signups_witness :
  let admin := insert {| user_name := "NIORA Admin"; email := "admin@niora.com";
                         password := "x"; role := "admin" |} empty_table in
  exists db1,
    startup Demo.hash "salt"
      {| users := fst (signup Demo.hash "salt" Demo.asha admin);
         products := empty_table; gallery := empty_table;
         settings := ∅; reviews := empty_table |} = Done db1 /\
    length (rows (users db1)) = 2%nat.
Proof.
  intros admin.
  destruct (X22_start_survives_signups Demo.hash "salt" [("salt"%string, Demo.asha)]
              {| users := admin; products := empty_table;
                 gallery := empty_table; settings := ∅;
                 reviews := empty_table |} eq_refl)
    as (db1 & H & Hu).
  exists db1. split; [exact H|]. rewrite Hu. reflexivity.
Defined.

End startup_facts.

(* ===================================================================== *)
(** * More properties of the statistics and of the dashboard *)
(* ===================================================================== *)

Section reports_facts.
Import Json Data Client Spec Sample Server.
Local Open Scope Z_scope.












Lemma month_revenue_in_month (month_short : string -> string) (sel m : string)
    (l : list Order) :
  Forall (fun o => month_short (created_at o) = sel) l ->
  month_revenue month_short m l =
  if String.eqb sel m then Zsum (map total l) else 0.
Proof.
  unfold month_revenue, month_orders.
  induction 1 as [|o l Ho _ IH]; cbn [List.filter map].
  - destruct (String.eqb sel m); reflexivity.
  - rewrite Ho. destruct (String.eqb sel m); cbn [map]; unfold Zsum in *;
      cbn [fold_right]; rewrite IH; reflexivity.
Qed.

(** X25.  With a month selected, the chart shows one bar at most: the
    bar of the selected month carries the whole revenue of the dashboard
    and the other bars are 0; for a month from April to December the
    chart is flat, whatever the revenue. *)
Theorem X25_chart_of_a_selected_month :
  forall (month_short : string -> string) (selectedMonth : string)
         (adminOrders : list Order),
    selectedMonth <> "All"%string ->
    let stats :=
      dashboardStats month_short
        (filteredOrders month_short selectedMonth adminOrders) in
    salesChartData stats =
      map (fun m => (m, if String.eqb selectedMonth m
                        then totalRevenue stats else 0))
          ["Jan"; "Feb"; "Mar"]%string.
Proof.
  intros month_short selectedMonth adminOrders Hsel stats. subst stats.
  rewrite salesChartData_spec, dashboard_totalRevenue.
  assert (H : Forall (fun o => month_short (created_at o) = selectedMonth)
                (filteredOrders month_short selectedMonth adminOrders)).
  { unfold filteredOrders.
    destruct (String.eqb_spec selectedMonth "All"); [contradiction|].
    apply Forall_forall. intros o Ho.
    apply list_elem_of_In, filter_In in Ho as [_ Ho].
    apply String.eqb_eq, Ho. }
  rewrite !(month_revenue_in_month month_short selectedMonth _ _ H).
  reflexivity.
Qed.

Lemma X25_chart_of_a_selected_month_witness :
  let stats :=
    dashboardStats month_short_en
      (filteredOrders month_short_en "Apr" (january ++ [april])) in
  totalRevenue stats = 150 /\
  salesChartData stats = [("Jan", 0); ("Feb", 0); ("Mar", 0)]%string.
Proof.
  intros stats. split; [vm_compute; reflexivity|].
  subst stats.
  rewrite (X25_chart_of_a_selected_month month_short_en "Apr"
             (january ++ [april])); [reflexivity | discriminate].
Defined.

End reports_facts.

(* ===================================================================== *)
(** * Properties of the product search and of the export *)
(* ===================================================================== *)

Section search_facts.
Import Json Data Client Spec Shop.
Local Open Scope Z_scope.

Lemma starts_with_empty (s : string) : starts_with s "" = true.
Proof. destruct s; reflexivity. Qed.












End search_facts.

(* ===================================================================== *)
(** * Properties of the session *)
(* ===================================================================== *)

Section session_facts.
Import Json Data Server Store Session.
Local Open Scope Z_scope.

Lemma present_stringify_obj (ms : list (string * json)) :
  Shop.present (Some (JSON_stringify (JObj ms))) =
  Some (JSON_stringify (JObj ms)).
Proof. reflexivity. Qed.

Lemma user_of_json_to_json (u : UserInfo.t) :
  user_of_json (user_to_json u) = Some u.
Proof. destruct u. reflexivity. Qed.

(** Reloading the page after a login that the client has recorded. *)
Lemma reload_after_login (st : State) (t : string) (u : UserInfo.t) :
  t <> ""%string ->
  niora_token st = Some t ->
  niora_user st = Some (JSON_stringify (user_to_json u)) ->
  exists st',
    reload st = Ok st' /\
    token st' = Some t /\ user st' = Some u /\
    isAdmin st' = String.eqb (UserInfo.role u) "admin".
Proof.
  intros Ht Htok Huser. unfold reload, restore, initial.
  cbn [niora_user token]. rewrite Htok, Huser.
  unfold user_to_json at 1. rewrite present_stringify_obj.
  assert (Hp : Shop.present (Some t) = Some t).
  { apply present_Some. auto. }
  rewrite Hp. fold (user_to_json u).
  rewrite JSON_parse_stringify, user_of_json_to_json.
  eexists. split; [reflexivity|]. cbn [token user isAdmin].
  repeat split. destruct (String.eqb _ _); reflexivity.
Qed.

(** X28.  From the login to the next visit.  When an account logs in
    (unique addresses, matching password, a token that is not empty), the
    client keeps the token and the user that the server sent, through
    either form; the form of the administrators marks the session as
    admin whatever the role, the form of the customers only for the role
    "admin"; and after the page is loaded again, the session holds the
    same token and the same user, and is marked admin exactly when the
    role of the account is "admin". *)
Theorem X28_session_survives_a_reload :
  forall (compareSync : string -> string -> bool)
         (jwt_sign : Jwt.payload -> string)
         (t : Table User) (r : Z * User) (pw : string) (st : State),
    NoDup (emails t) -> In r (rows t) ->
    compareSync pw (password (snd r)) = true ->
    jwt_sign (token_payload r) <> ""%string ->
    let res := login compareSync jwt_sign
                 {| login_email := email (snd r); login_password := pw |} t in
    let u := {| UserInfo.id := fst r;
                UserInfo.name := user_name (snd r);
                UserInfo.role := role (snd r) |} in
    let by_admin_form := handleAdminLogin res st in
    let by_user_form := handleAuth_login res st in
    token by_admin_form = Some (jwt_sign (token_payload r)) /\
    token by_user_form = Some (jwt_sign (token_payload r)) /\
    user by_admin_form = Some u /\ user by_user_form = Some u /\
    isAdmin by_admin_form = true /\
    isAdmin by_user_form =
      (if String.eqb (role (snd r)) "admin" then true else isAdmin st) /\
    (exists st', reload by_admin_form = Ok st' /\
       token st' = Some (jwt_sign (token_payload r)) /\ user st' = Some u /\
       isAdmin st' = String.eqb (role (snd r)) "admin") /\
    (exists st', reload by_user_form = Ok st' /\
       token st' = Some (jwt_sign (token_payload r)) /\ user st' = Some u /\
       isAdmin st' = String.eqb (role (snd r)) "admin").
Proof.
  intros compareSync jwt_sign t r pw st Hnd Hin Hpw Hne res u
    by_admin_form by_user_form.
  assert (Hres : res =
    SendJson 200
      (JObj [("token"%string, JStr (jwt_sign (token_payload r)));
             ("user"%string, user_to_json u)])).
  { subst res. unfold login. cbn [login_email login_password].
    rewrite (user_by_email_unique t r Hnd Hin), Hpw. reflexivity. }
  assert (Hdata : login_data res = Some (jwt_sign (token_payload r), u)).
  { rewrite Hres. cbn [login_data get_field String.eqb Ascii.eqb Bool.eqb].
    rewrite user_of_json_to_json. reflexivity. }
  assert (Hok : ok res = true) by (rewrite Hres; reflexivity).
  subst by_admin_form by_user_form.
  unfold handleAdminLogin, handleAuth_login. rewrite Hok, Hdata.
  cbn [token user isAdmin UserInfo.role u].
  repeat split;
    apply (reload_after_login _ (jwt_sign (token_payload r)) u Hne);
    reflexivity.
Qed.

Lemma X28_session_survives_a_reload_witness :
  let t := fst (signup Demo.hash "salt" Demo.asha empty_table) in
  let res := login Demo.compare Demo.sign
               {| login_email := "asha@example.com";
                  login_password := "s3cret" |} t in
  isAdmin (handleAdminLogin res (initial None None)) = true /\
  exists st',
    reload (handleAdminLogin res (initial None None)) = Ok st' /\
    isAdmin st' = false.
Proof.
  intros t res.
  assert (Hnd : NoDup (emails t)) by (apply NoDup_singleton).
  assert (Hin : In (1, {| user_name := "Asha"; email := "asha@example.com";
                          password := "salts3cret"; role := "customer" |})
                   (rows t)) by (left; reflexivity).
  destruct (X28_session_survives_a_reload Demo.compare Demo.sign t _ "s3cret"
              (initial None None) Hnd Hin eq_refl)
    as (_ & _ & _ & _ & Ha & _ & (st' & Hr & _ & _ & Hadm) & _).
  - discriminate.
  - split; [exact Ha|]. exists st'. split; [exact Hr | exact Hadm].
Defined.

End session_facts.
